(** * Ballistic flight simulation (lab01/lab1_simulation.py)

    A shallow embedding of [BallisticApp]: parameter acquisition
    ([get_parameters]), the semi-implicit Euler loop of [run_simulation],
    the stored [SimulationResult] and the flight-time column of
    [update_table].

    Python's [float] is IEEE-754 binary64, so numbers are Rocq's primitive
    floats, with the exceptions the interpreter raises written out
    ([ZeroDivisionError] from [/], [OverflowError] from [**], [ValueError]
    from the [math] module and from [float(text)]).  The [while] loop takes
    its number of iterations as fuel. *)

From Stdlib Require Import ZArith List ListDec Bool Lia String Floats.
Import ListNotations.

Set Warnings "-inexact-float".
(* A decimal literal denotes the nearest binary64 value, as in Python. *)

(** ** Exceptions and the result monad *)

Inductive exn : Set :=
| ZeroDivisionError
| OverflowError
| ValueError.

Inductive res (A : Type) : Type :=
| Ok (a : A)
| Raise (e : exn).

Arguments Ok {A} a.
Arguments Raise {A} e.

Definition bind {A B : Type} (m : res A) (k : A -> res B) : res B :=
  match m with
  | Ok a => k a
  | Raise e => Raise e
  end.

Notation "x <- m ;; k" := (bind m (fun x => k))
  (at level 61, m at next level, right associativity).
Notation "' pat <- m ;; k" := (bind m (fun x => match x with pat => k end))
  (at level 61, pat pattern, m at next level, right associativity).

(** ** What the interpreter and the C library supply

    [math.cos], [math.sin] and [**] call the C library's [cos], [sin] and
    [pow], which are not correctly rounded and differ between platforms;
    [float(text)] is the interpreter's parser, [None] standing for its
    [ValueError].  They are a parameter of the model. *)

Record runtime : Type := Runtime {
  c_cos : float -> float;
  c_sin : float -> float;
  c_pow : float -> float -> float;
  py_float : string -> option float
}.

Module Py.
Section WithRuntime.
Variable R : runtime.
Local Open Scope float_scope.

Definition is_finite (x : float) : bool :=
  negb (is_nan x || is_infinity x).

(** [a / b] on floats. *)
Definition truediv (a b : float) : res float :=
  if b =? 0 then Raise ZeroDivisionError else Ok (a / b).

(** [iv ** 2]: the cases of CPython's [float_pow] that an exponent of 2
    can reach; the C library is called on a finite base that is positive
    and not 1, and a result of HUGE_VAL is a range error. *)
Definition pow2 (iv : float) : res float :=
  if is_nan iv then Ok iv
  else if is_infinity iv then Ok (abs iv)
  else if iv =? 0 then Ok 0
  else
    let iv := if iv <? 0 then - iv else iv in
    if iv =? 1 then Ok 1
    else
      let ix := c_pow R iv 2 in
      if is_infinity ix then Raise OverflowError else Ok ix.

(** CPython's [math_1] with [can_overflow = 0], the wrapper of
    [math.sqrt], [math.cos] and [math.sin]. *)
Definition math_1 (func : float -> float) (x : float) : res float :=
  let r := func x in
  if is_nan r && negb (is_nan x) then Raise ValueError
  else if is_infinity r && is_finite x then Raise ValueError
  else Ok r.

Definition math_sqrt : float -> res float := math_1 sqrt.
Definition math_cos : float -> res float := math_1 (c_cos R).
Definition math_sin : float -> res float := math_1 (c_sin R).

Definition pi : float := 0x1.921fb54442d18p+1.
Definition degToRad : float := pi / 180.
Definition math_radians (x : float) : float := x * degToRad.

(** [math.sqrt(a ** 2 + b ** 2)], as written at lines 183 and 209. *)
Definition norm (a b : float) : res float :=
  a2 <- pow2 a;;
  b2 <- pow2 b;;
  math_sqrt (a2 + b2).

(** [int * float] and [len(...) * dt]: the integer is converted with
    round-to-nearest-even. *)
Definition float_of_nat (n : nat) : float :=
  SF2Prim (binary_normalize prec emax (Z.of_nat n) 0 false).
End WithRuntime.
End Py.

(** ** Data *)

(** The dict returned by [get_parameters]; keys 'v0', 'angle', 'm', 'rho',
    'C', 'S', 'dt'. *)
Record params : Type := Params {
  p_v0 : float;
  p_angle : float;
  p_m : float;
  p_rho : float;
  p_C : float;
  p_S : float;
  p_dt : float
}.

(** The text of the six [self.entries] fields and of [self.dt_entry]. *)
Record entries : Type := Entries {
  e_v0 : string;
  e_angle : string;
  e_m : string;
  e_rho : string;
  e_C : string;
  e_S : string;
  e_dt : string
}.

(** [@dataclass SimulationResult]. *)
Record SimulationResult : Type := mkSimulationResult {
  dt : float;
  trajectory : list (float * float);
  f_range : float;
  max_height : float;
  final_speed : float
}.

(** The locals of [run_simulation] that the loop reads and writes. *)
Record state : Type := State {
  st_x : float;
  st_y : float;
  st_vx : float;
  st_vy : float;
  st_trajectory : list (float * float);
  st_times : list float;
  st_t : float;
  st_max_height : float
}.

(** The [ValueError]s that [get_parameters] catches and shows. *)
Inductive invalid_parameter : Type :=
| NotANumber (text : string)
| StepNotPositive
| SpeedNotPositive
| AngleOutOfRange.

(** How one click on the run button ends. *)
Inductive outcome : Type :=
| Rejected (err : invalid_parameter)
| Cancelled
| Failed (e : exn)
| Stored (r : SimulationResult).

(** What an f-string prints for [{x:.Nf}]: the sign and the decimal digits
    as an integer, that is |x| * 10^N rounded half-even on the exact binary
    value. *)
Inductive rendered : Set :=
| RNan
| RInf (neg : bool)
| RFix (neg : bool) (scaled : Z).

Record table_row : Set := Row {
  col_step : rendered;
  col_range : rendered;
  col_max_height : rendered;
  col_final_speed : rendered;
  col_flight_time : rendered
}.

(** ** The application *)

Section BallisticApp.
Variable R : runtime.
Local Open Scope float_scope.

(** [self.g], set in [__init__] and never changed. *)
Definition g : float := 9.81.

(** *** get_parameters (lines 127-150) *)

Definition parse (text : string) : invalid_parameter + float :=
  match py_float R text with
  | Some f => inr f
  | None => inl (NotANumber text)
  end.

(** The three checks of lines 140-145, first failure wins. *)
Definition validate (p : params) : option invalid_parameter :=
  if p_dt p <=? 0 then Some StepNotPositive
  else if p_v0 p <=? 0 then Some SpeedNotPositive
  else if (p_angle p <=? 0) || (90 <=? p_angle p) then Some AngleOutOfRange
  else None.

(** [inl err] is the branch that shows the error box and returns [None]. *)
Definition get_parameters (e : entries) : invalid_parameter + params :=
  match parse (e_v0 e) with inl err => inl err | inr v0 =>
  match parse (e_angle e) with inl err => inl err | inr angle =>
  match parse (e_m e) with inl err => inl err | inr m =>
  match parse (e_rho e) with inl err => inl err | inr rho =>
  match parse (e_C e) with inl err => inl err | inr c =>
  match parse (e_S e) with inl err => inl err | inr s =>
  match parse (e_dt e) with inl err => inl err | inr step =>
    let p := Params v0 angle m rho c s step in
    match validate p with
    | Some err => inl err
    | None => inr p
    end
  end end end end end end end.

(** *** calculate_drag_force (lines 152-154) *)

Definition calculate_drag_force (v : float) (p : params) : res float :=
  v2 <- Py.pow2 R v;;
  Ok (0.5 * p_rho p * p_C p * p_S p * v2).

(** *** The loop of run_simulation (lines 171-205) *)

(** Lines 189-190.  The [else] value of [ax] is the integer 0, which
    [ax * dt] converts to 0.0. *)
Definition acceleration (p : params) (vx vy v drag_force : float)
  : res (float * float) :=
  ax <- (if 0 <? v then Py.truediv (- drag_force * vx) (p_m p * v)
         else Ok 0);;
  ay <- (if 0 <? v
         then q <- Py.truediv (drag_force * vy) (p_m p * v);; Ok (- g - q)
         else Ok (- g));;
  Ok (ax, ay).

(** Lines 172-179. *)
Definition initial (p : params) : res state :=
  let angle_rad := Py.math_radians (p_angle p) in
  c <- Py.math_cos R angle_rad;;
  let vx := p_v0 p * c in
  s <- Py.math_sin R angle_rad;;
  let vy := p_v0 p * s in
  Ok (State 0 0 vx vy [(0, 0)] [0] 0 0).

(** One pass through the loop body, lines 183-205. *)
Definition euler_step (p : params) (s : state) : res state :=
  v <- Py.norm R (st_vx s) (st_vy s);;
  drag_force <- calculate_drag_force v p;;
  '(ax, ay) <- acceleration p (st_vx s) (st_vy s) v drag_force;;
  let vx := st_vx s + ax * p_dt p in
  let vy := st_vy s + ay * p_dt p in
  let x := st_x s + vx * p_dt p in
  let y := st_y s + vy * p_dt p in
  let t := st_t s + p_dt p in
  Ok (State x y vx vy
            (st_trajectory s ++ [(x, y)])
            (st_times s ++ [t])
            t
            (if st_max_height s <? y then y else st_max_height s)).

(** [while y >= 0: ...] run for at most [fuel] iterations; [None] means
    the loop is still running. *)
Fixpoint euler_loop (fuel : nat) (p : params) (s : state)
  : option (res state) :=
  if 0 <=? st_y s then
    match fuel with
    | O => None
    | S fuel' =>
        match euler_step p s with
        | Ok s' => euler_loop fuel' p s'
        | Raise e => Some (Raise e)
        end
    end
  else Some (Ok s).

(** Lines 207-219.  The [else] value of [final_speed] is the integer 0,
    kept here as 0.0; the table prints both as 0.00. *)
Definition finish (p : params) (s : state) : res SimulationResult :=
  let range_distance := st_x s in
  final_speed <- (if st_y s <=? 0 then Py.norm R (st_vx s) (st_vy s)
                  else Ok 0);;
  Ok (mkSimulationResult (p_dt p) (st_trajectory s) range_distance
                         (st_max_height s) final_speed).

(** Lines 171-219: from validated parameters to the result record. *)
Definition simulate (fuel : nat) (p : params)
  : option (res SimulationResult) :=
  match initial p with
  | Raise e => Some (Raise e)
  | Ok s0 =>
      match euler_loop fuel p s0 with
      | None => None
      | Some (Raise e) => Some (Raise e)
      | Some (Ok s) => Some (finish p s)
      end
  end.

(** *** run_simulation as a whole (lines 156-226) *)

(** Lines 165-169: every stored result with the same step asks for
    confirmation; [ask k] is the answer to the k-th dialog. *)
Fixpoint confirm_rerun (step : float) (results : list SimulationResult)
         (ask : nat -> bool) (k : nat) : bool :=
  match results with
  | [] => true
  | result :: rest =>
      if abs (dt result - step) <? 1e-10 then
        if ask k then confirm_rerun step rest ask (S k) else false
      else confirm_rerun step rest ask k
  end.

(** One click: the outcome and [self.results] afterwards.  An exception
    that escapes leaves the list as it was, the append being the last
    statement before the redraw. *)
Definition run_simulation (fuel : nat) (results : list SimulationResult)
           (e : entries) (ask : nat -> bool)
  : option (outcome * list SimulationResult) :=
  match get_parameters e with
  | inl err => Some (Rejected err, results)
  | inr p =>
      if confirm_rerun (p_dt p) results ask 0 then
        match simulate fuel p with
        | None => None
        | Some (Raise ex) => Some (Failed ex, results)
        | Some (Ok result) => Some (Stored result, results ++ [result])
        end
      else Some (Cancelled, results)
  end.
End BallisticApp.

(** *** update_table (lines 256-272) *)

Definition round_half_even (num den : Z) : Z :=
  let q := (num / den)%Z in
  match (2 * (num mod den) ?= den)%Z with
  | Lt => q
  | Gt => (q + 1)%Z
  | Eq => if Z.even q then q else (q + 1)%Z
  end.

(** [f"{x:.Nf}"]: Python prints the correctly rounded decimal, ties on the
    exact binary value going to the even digit; "-0.00" keeps its sign. *)
Definition format_f (digits : nat) (x : float) : rendered :=
  match Prim2SF x with
  | S754_nan => RNan
  | S754_infinity s => RInf s
  | S754_zero s => RFix s 0
  | S754_finite s m e =>
      let n := (Z.pos m * 10 ^ Z.of_nat digits)%Z in
      RFix s (if (0 <=? e)%Z then (n * 2 ^ e)%Z
              else round_half_even n (2 ^ (- e)))
  end.

(** Line 264. *)
Definition flight_time (result : SimulationResult) : float :=
  (Py.float_of_nat (List.length (trajectory result)) * dt result)%float.

Definition table_row_of (result : SimulationResult) : table_row :=
  Row (format_f 6 (dt result))
      (format_f 2 (f_range result))
      (format_f 2 (max_height result))
      (format_f 2 (final_speed result))
      (format_f 2 (flight_time result)).

(** The rows of the tree view after the call, one per stored result. *)
Definition update_table (results : list SimulationResult) : list table_row :=
  map table_row_of results.

(** *** update_plot (lines 228-254) *)

(** [self.colors], line 42. *)
Definition colors : list string :=
  ["blue"; "red"; "green"; "brown"; "purple"]%string.

(** What the two [self.ax.plot] calls of one pass draw: the line with its
    colour and legend label, and the round marker. *)
Record plot_series : Type := Series {
  ser_color : string;
  ser_x : list float;
  ser_y : list float;
  ser_label : rendered;
  ser_marker : float * float
}.

(** [l[-1]]; [None] is the [IndexError] of an empty list. *)
Definition last_item {A : Type} (l : list A) : option A :=
  match rev l with
  | [] => None
  | a :: _ => Some a
  end.

(** The loop of lines 233-244 from index [i] on; [None] is the
    [IndexError] that leaves the canvas undrawn. *)
Fixpoint plot_from (i : nat) (results : list SimulationResult)
  : option (list plot_series) :=
  match results with
  | [] => Some []
  | result :: rest =>
      let color := nth (i mod List.length colors) colors EmptyString in
      let x_vals := map fst (trajectory result) in
      let y_vals := map snd (trajectory result) in
      match last_item x_vals, last_item y_vals with
      | Some x, Some y =>
          match plot_from (S i) rest with
          | Some drawn =>
              Some (Series color x_vals y_vals (format_f 4 (dt result)) (x, y)
                    :: drawn)
          | None => None
          end
      | _, _ => None
      end
  end.

Definition update_plot (results : list SimulationResult)
  : option (list plot_series) :=
  plot_from 0 results.

(** *** clear_results (lines 274-280) *)

(** [confirm] is the answer to the dialog; the new [self.results]. *)
Definition clear_results (confirm : bool) (results : list SimulationResult)
  : list SimulationResult :=
  if confirm then [] else results.

(** *** The two buttons (lines 92-95) *)

Inductive click : Type :=
| ClickRun (e : entries) (ask : nat -> bool) (fuel : nat)
| ClickClear (confirm : bool).

(** [self.results] after one click; [None] when the simulation it starts
    is still running after [fuel] iterations. *)
Definition click_step (R : runtime) (results : list SimulationResult)
           (c : click) : option (list SimulationResult) :=
  match c with
  | ClickRun e ask fuel =>
      match run_simulation R fuel results e ask with
      | Some (_, results') => Some results'
      | None => None
      end
  | ClickClear confirm => Some (clear_results confirm results)
  end.

(** [self.results] after a sequence of clicks. *)
Fixpoint session (R : runtime) (results : list SimulationResult)
         (cs : list click) : option (list SimulationResult) :=
  match cs with
  | [] => Some results
  | c :: cs' =>
      match click_step R results c with
      | Some results' => session R results' cs'
      | None => None
      end
  end.

(** ** Vocabulary of the statements *)

(** Parameters that satisfy what the three checks are meant to ensure. *)
Definition well_formed (p : params) : Prop :=
  (0 <? p_dt p)%float = true /\
  (0 <? p_v0 p)%float = true /\
  (0 <? p_angle p)%float = true /\
  (p_angle p <? 90)%float = true.

(** The seven numbers [float(...)] yields, before any check. *)
Definition parse_all (R : runtime) (e : entries) : option params :=
  match py_float R (e_v0 e), py_float R (e_angle e), py_float R (e_m e),
        py_float R (e_rho e), py_float R (e_C e), py_float R (e_S e),
        py_float R (e_dt e) with
  | Some v0, Some angle, Some m, Some rho, Some c, Some s, Some step =>
      Some (Params v0 angle m rho c s step)
  | _, _, _, _, _, _, _ => None
  end.

(** Some field that [float(...)] does not accept. *)
Definition unparsable (R : runtime) (e : entries) : Prop :=
  py_float R (e_v0 e) = None \/ py_float R (e_angle e) = None \/
  py_float R (e_m e) = None \/ py_float R (e_rho e) = None \/
  py_float R (e_C e) = None \/ py_float R (e_S e) = None \/
  py_float R (e_dt e) = None.

(** Outside the open interval (0, 90): not strictly between the bounds. *)
Definition outside_open_interval (a : float) : Prop :=
  ~ ((0 <? a)%float = true /\ (a <? 90)%float = true).

(** The values the error taxonomy lists: a step at most 0, a speed at
    most 0, an angle outside (0, 90). *)
Definition invalid_values (p : params) : Prop :=
  (p_dt p <=? 0)%float = true \/ (p_v0 p <=? 0)%float = true \/
  outside_open_interval (p_angle p).

(** The text of the first field, in the order the dict is built, that
    [float(...)] does not accept. *)
Definition first_unparsable (R : runtime) (e : entries) : option string :=
  find (fun text => match py_float R text with
                    | None => true
                    | Some _ => false
                    end)
       [e_v0 e; e_angle e; e_m e; e_rho e; e_C e; e_S e; e_dt e].

(** The state of motion: what the next pass through the loop body
    depends on. *)
Definition motion (s : state) : float * float * float * float :=
  (st_x s, st_y s, st_vx s, st_vy s).

(** A number for each binary64 value, below 2^66. *)
Definition float_code (x : float) : Z :=
  match Prim2SF x with
  | S754_zero s => Z.b2z s
  | S754_infinity s => 2 + Z.b2z s
  | S754_nan => 4
  | S754_finite s m e =>
      5 + Z.b2z s + 2 * (Z.pos m + 2 ^ 53 * (e - emin))
  end%Z.

Definition motion_code (k : float * float * float * float) : Z :=
  match k with
  | (x, y, vx, vy) =>
      ((float_code x * 2 ^ 66 + float_code y) * 2 ^ 66 + float_code vx)
      * 2 ^ 66 + float_code vy
  end%Z.

(** A bound on the number of states of motion: four binary64 values. *)
Definition motion_states : nat := Z.to_nat (2 ^ 264).

(** The test of line 166. *)
Definition same_step (step : float) (r : SimulationResult) : bool :=
  (abs (dt r - step) <? 1e-10)%float.

(** A result that some run of the simulation returned. *)
Definition from_run (R : runtime) (r : SimulationResult) : Prop :=
  exists p fuel, simulate R fuel p = Some (Ok r).

(** No click of the sequence is a confirmed clear. *)
Definition keeps_results (c : click) : bool :=
  match c with
  | ClickClear true => false
  | _ => true
  end.

(** [y >= 0], the loop condition. *)
Definition above_ground (y : float) : bool := (0 <=? y)%float.

Definition heights (tr : list (float * float)) : list float := map snd tr.

(** Python's [max]: the first element, replaced by each later one that
    compares greater. *)
Fixpoint max_from (m : float) (l : list float) : float :=
  match l with
  | [] => m
  | h :: l' => max_from (if (m <? h)%float then h else m) l'
  end.

Definition py_max (l : list float) : option float :=
  match l with
  | [] => None
  | h :: l' => Some (max_from h l')
  end.

(** [reaches R p s0 n s]: [n] passes through the loop body, each entered
    with the condition true and left without an exception, lead from [s0]
    to [s]. *)
Inductive reaches (R : runtime) (p : params) (s0 : state)
  : nat -> state -> Prop :=
| reaches_O : reaches R p s0 0 s0
| reaches_S (n : nat) (s s' : state) :
    reaches R p s0 n s ->
    above_ground (st_y s) = true ->
    euler_step R p s = Ok s' ->
    reaches R p s0 (S n) s'.

(** The elapsed time after [n] iterations: [t += dt], [n] times from 0.0. *)
Definition elapsed (step : float) (n : nat) : float :=
  Nat.iter n (fun t => (t + step)%float) 0%float.

(** What holds of the loop's locals after [n] iterations: the trajectory
    ends with the current position, has [n] samples before it, all at or
    above ground, and starts at the origin; [max_height] is the maximum of
    the heights so far; [t] is the accumulated step. *)
Definition loop_inv (step : float) (n : nat) (s : state) : Prop :=
  (exists pre,
      st_trajectory s = pre ++ [(st_x s, st_y s)] /\
      List.length pre = n /\
      Forall (fun q => above_ground (snd q) = true) pre) /\
  hd_error (st_trajectory s) = Some (0, 0)%float /\
  py_max (heights (st_trajectory s)) = Some (st_max_height s) /\
  st_t s = elapsed step n.

(** Explicit (forward) Euler, for comparison: the position advanced with
    the velocity from before the step. *)
Definition explicit_position (p : params) (s : state) : float * float :=
  ((st_x s + st_vx s * p_dt p)%float, (st_y s + st_vy s * p_dt p)%float).

(** ** A reference runtime for the examples

    The values an x86-64 glibc returns at the arguments the examples use:
    [cos] and [sin] at [math.radians(45)], [pow(x, 2.0)] as the correctly
    rounded square (glibc's [pow] is within one unit in the last place of
    it), and [float] on the texts below.  Anything else is answered with
    NaN or a [ValueError], so an example cannot rest on a made-up value. *)

Module Ref.
Local Open Scope string_scope.
Local Open Scope float_scope.

Definition cos (x : float) : float :=
  if x =? 0x1.921fb54442d18p-1 then 0x1.6a09e667f3bcdp-1 else nan.

Definition sin (x : float) : float :=
  if x =? 0x1.921fb54442d18p-1 then 0x1.6a09e667f3bccp-1 else nan.

Definition pow (x y : float) : float :=
  if y =? 2 then x * x else nan.

Definition float_texts : list (string * float) :=
  [ ("100.0", 100); ("45.0", 45); ("1.0", 1); ("1.29", 1.29);
    ("0.15", 0.15); ("0.01", 0.01); ("0.005", 0.005); ("20", 20);
    ("0", 0); ("0.5", 0.5); ("5e-324", 5e-324); ("nan", nan);
    ("90", 90); ("-1", -1); ("0.08", 0.08) ].

Fixpoint lookup (text : string) (l : list (string * float)) : option float :=
  match l with
  | [] => None
  | (k, f) :: l' => if String.eqb k text then Some f else lookup text l'
  end.

Definition float_of_text (text : string) : option float :=
  lookup text float_texts.

Definition rt : runtime := Runtime cos sin pow float_of_text.

(** The form as [setup_ui] fills it in, and the dict it parses to. *)
Definition default_entries : entries :=
  Entries "100.0" "45.0" "1.0" "1.29" "0.15" "0.01" "0.01".

Definition default_params : params :=
  Params 100 45 1 1.29 0.15 0.01 0.01.

(** Step 20 s: the first step already lands below ground. *)
Definition coarse_step : params := Params 100 45 1 1.29 0.15 0.01 20.

(** Launch at 1 m/s with step 0.005 s: 28 iterations. *)
Definition slow_launch : params := Params 1 45 1 1.29 0.15 0.01 0.005.

(** Mass 0. *)
Definition zero_mass_entries : entries :=
  Entries "100.0" "45.0" "0" "1.29" "0.15" "0.01" "0.01".

Definition zero_mass : params := Params 100 45 0 1.29 0.15 0.01 0.01.

(** Air density NaN. *)
Definition nan_density_entries : entries :=
  Entries "100.0" "45.0" "1.0" "nan" "0.15" "0.01" "0.01".

Definition nan_density : params := Params 100 45 1 nan 0.15 0.01 0.01.

(** The smallest positive step, launch at 0.5 m/s. *)
Definition tiny_step : params := Params 0.5 45 1 1.29 0.15 0.01 5e-324.

(** Launch at 0.08 m/s with step 0.005 s: two iterations. *)
Definition short_hop : params := Params 0.08 45 1 1.29 0.15 0.01 0.005.

Definition short_hop_entries : entries :=
  Entries "0.08" "45.0" "1.0" "1.29" "0.15" "0.01" "0.005".

(** The text "nan" in the angle field. *)
Definition nan_angle_entries : entries :=
  Entries "100.0" "nan" "1.0" "1.29" "0.15" "0.01" "0.01".

Definition nan_angle : params := Params 100 nan 1 1.29 0.15 0.01 0.01.

(** A positive mass and a positive speed whose product underflows to 0. *)
Definition featherweight : params :=
  Params 1e-150 45 1e-200 1.29 0.15 0.01 0.01.

(** A body at rest on the ground. *)
Definition at_rest : state := State 0 0 0 0 [(0, 0)] [0] 0 0.

(** The launch state of [short_hop], the states after its first
    and second iteration, and its result, all by evaluation. *)
Definition dummy_state : state := State 0 0 0 0 [] [] 0 0.

Definition state_after (n : nat) (p : params) : state :=
  match initial rt p with
  | Ok s0 =>
      Nat.iter n (fun s => match euler_step rt p s with
                           | Ok s' => s'
                           | Raise _ => s
                           end) s0
  | Raise _ => dummy_state
  end.

Definition short_hop_0 : state := Eval vm_compute in state_after 0 short_hop.
Definition short_hop_1 : state := Eval vm_compute in state_after 1 short_hop.
Definition short_hop_2 : state := Eval vm_compute in state_after 2 short_hop.

Definition short_hop_result : SimulationResult :=
  Eval vm_compute in
    match finish rt short_hop short_hop_2 with
    | Ok r => r
    | Raise _ => mkSimulationResult 0 [] 0 0 0
    end.

Definition slow_launch_0 : state := Eval vm_compute in state_after 0 slow_launch.
Definition slow_launch_28 : state := Eval vm_compute in state_after 28 slow_launch.

Definition slow_launch_result : SimulationResult :=
  Eval vm_compute in
    match finish rt slow_launch slow_launch_28 with
    | Ok r => r
    | Raise _ => mkSimulationResult 0 [] 0 0 0
    end.

Definition coarse_step_0 : state := Eval vm_compute in state_after 0 coarse_step.
Definition coarse_step_1 : state := Eval vm_compute in state_after 1 coarse_step.
(** No drag: the default data with drag coefficient 0. *)
Definition no_drag : params := Params 100 45 1 1.29 0 0.01 0.01.
Definition no_drag_0 : state := Eval vm_compute in state_after 0 no_drag.

Definition coarse_step_entries : entries :=
  Entries "100.0" "45.0" "1.0" "1.29" "0.15" "0.01" "20".

Definition nan_density_result : SimulationResult :=
  mkSimulationResult 0.01 [(0, 0); (nan, nan)] nan 0 0.

(** Two runs with a declined clear in between. *)
Definition demo_session : list click :=
  [ClickRun short_hop_entries (fun _ => true) 2;
   ClickClear false;
   ClickRun coarse_step_entries (fun _ => true) 1].

Definition demo_results : list SimulationResult :=
  Eval vm_compute in
    match session rt [] demo_session with
    | Some results => results
    | None => []
    end.
End Ref.


(** * Proofs *)

(** ** Order on binary64 values

    The comparisons are the kernel's; their meaning comes from the
    specification of the primitive operations over [spec_float]. *)

Section FloatOrder.
Local Open Scope float_scope.

Lemma Prim2SF_zero : Prim2SF 0 = S754_zero false.
Proof. reflexivity. Qed.

Lemma SFcompare_refl (f : spec_float) :
  SFcompare f f = match f with S754_nan => None | _ => Some Eq end.
Proof.
  destruct f as [s|s| |s m e]; try reflexivity; try (destruct s; reflexivity).
  unfold SFcompare. rewrite Z.compare_refl.
  change (PosDef.Pos.compare_cont Eq m m) with (Pos.compare m m).
  rewrite Pos.compare_refl. destruct s; reflexivity.
Qed.

Lemma is_nan_spec (x : float) :
  is_nan x = match Prim2SF x with S754_nan => true | _ => false end.
Proof.
  unfold is_nan. rewrite eqb_spec. unfold SFeqb. rewrite SFcompare_refl.
  destruct (Prim2SF x); reflexivity.
Qed.

Ltac float_cases y :=
  rewrite ?ltb_spec, ?leb_spec, ?eqb_spec, ?is_nan_spec, ?Prim2SF_zero in *;
  destruct (Prim2SF y) as [[|]|[|]| |[|] ? ?]; simpl in *;
  try discriminate; try reflexivity; auto.

Lemma ltb_zero_leb (y : float) : (y <? 0) = true -> (0 <=? y) = false.
Proof. intros H. float_cases y. Qed.

Lemma ltb_zero_leb_zero (y : float) : (y <? 0) = true -> (y <=? 0) = true.
Proof. intros H. float_cases y. Qed.

Lemma ltb_zero_not_nan (y : float) : (y <? 0) = true -> is_nan y = false.
Proof. intros H. float_cases y. Qed.

Lemma not_leb_zero (y : float) :
  (0 <=? y) = false -> is_nan y = false -> (y <? 0) = true.
Proof. intros H1 H2. float_cases y. Qed.

Lemma nan_leb_zero (y : float) : is_nan y = true -> (y <=? 0) = false.
Proof. intros H. float_cases y. Qed.

Lemma nan_zero_leb (y : float) : is_nan y = true -> (0 <=? y) = false.
Proof. intros H. float_cases y. Qed.

Lemma eqb_zero_not_pos (v : float) : (v =? 0) = true -> (0 <? v) = false.
Proof. intros H. float_cases v. Qed.

Lemma pos_not_eqb_zero (v : float) : (0 <? v) = true -> (v =? 0) = false.
Proof. intros H. float_cases v. Qed.

Lemma pos_not_leb_zero (v : float) : (0 <? v) = true -> (v <=? 0) = false.
Proof. intros H. float_cases v. Qed.

Ltac sf_order :=
  unfold SFltb, SFcompare;
  change PosDef.Pos.compare_cont with Pos.compare_cont;
  change (Pos.compare_cont Eq) with Pos.compare.

Lemma SFltb_trans (a b c : spec_float) :
  SFltb a b = true -> SFltb b c = true -> SFltb a c = true.
Proof.
  destruct a as [[|]|[|]| |[|] m1 e1], b as [[|]|[|]| |[|] m2 e2],
           c as [[|]|[|]| |[|] m3 e3];
    sf_order; try discriminate; try reflexivity;
    destruct (Z.compare_spec e1 e2); try discriminate;
    destruct (Z.compare_spec e2 e3); try discriminate;
    destruct (Z.compare_spec e1 e3); try reflexivity; try lia; subst;
    destruct (Pos.compare_spec m1 m2); try discriminate;
    destruct (Pos.compare_spec m2 m3); try discriminate;
    destruct (Pos.compare_spec m1 m3); try reflexivity; try lia;
    intros; try discriminate.
Qed.

(** Below a value that is a number, "not less" chains. *)
Lemma SFltb_neg_trans (a b c : spec_float) :
  b <> S754_nan ->
  SFltb a b = false -> SFltb b c = false -> SFltb a c = false.
Proof.
  intros Hb.
  destruct a as [[|]|[|]| |[|] m1 e1], b as [[|]|[|]| |[|] m2 e2],
           c as [[|]|[|]| |[|] m3 e3];
    try congruence;
    sf_order; try discriminate; try reflexivity;
    destruct (Z.compare_spec e1 e2); try discriminate;
    destruct (Z.compare_spec e2 e3); try discriminate;
    destruct (Z.compare_spec e1 e3); try reflexivity; try lia; subst;
    destruct (Pos.compare_spec m1 m2); try discriminate;
    destruct (Pos.compare_spec m2 m3); try discriminate;
    destruct (Pos.compare_spec m1 m3); try reflexivity; try lia;
    intros; try discriminate.
Qed.

Lemma ltb_trans (a b c : float) :
  (a <? b) = true -> (b <? c) = true -> (a <? c) = true.
Proof. rewrite !ltb_spec. apply SFltb_trans. Qed.

Lemma ltb_neg_trans (a b c : float) :
  is_nan b = false ->
  (a <? b) = false -> (b <? c) = false -> (a <? c) = false.
Proof.
  rewrite is_nan_spec, !ltb_spec. intros Hb. apply SFltb_neg_trans.
  intros E. rewrite E in Hb. discriminate.
Qed.

Lemma ltb_irrefl (a : float) : (a <? a) = false.
Proof.
  rewrite ltb_spec. unfold SFltb. rewrite SFcompare_refl.
  destruct (Prim2SF a); reflexivity.
Qed.

Lemma nan_ltb (a b : float) : is_nan a = true -> (a <? b) = false.
Proof.
  rewrite is_nan_spec, ltb_spec. destruct (Prim2SF a); try discriminate.
  reflexivity.
Qed.

Lemma ltb_not_nan_r (a b : float) : (a <? b) = true -> is_nan b = false.
Proof.
  rewrite is_nan_spec, ltb_spec.
  destruct (Prim2SF b); try reflexivity.
  destruct (Prim2SF a) as [[|]|[|]| |[|] ? ?]; discriminate.
Qed.
End FloatOrder.

(** ** The running maximum *)

Section RunningMaximum.
Local Open Scope float_scope.

Lemma max_from_snoc (l : list float) : forall m y,
  max_from m (l ++ [y]) =
  if max_from m l <? y then y else max_from m l.
Proof.
  induction l as [|h l IH]; intros m y; simpl.
  - reflexivity.
  - apply IH.
Qed.

Lemma py_max_snoc (l : list float) (m y : float) :
  py_max l = Some m ->
  py_max (l ++ [y]) = Some (if m <? y then y else m).
Proof.
  destruct l as [|h l]; simpl; intros H; [discriminate|].
  injection H as <-. now rewrite max_from_snoc.
Qed.

Lemma max_from_nan (l : list float) : forall m,
  is_nan m = true -> max_from m l = m.
Proof.
  induction l as [|h l IH]; intros m Hm; simpl; [reflexivity|].
  rewrite (nan_ltb m h Hm). now apply IH.
Qed.

Lemma max_from_In (l : list float) : forall m, In (max_from m l) (m :: l).
Proof.
  induction l as [|h l IH]; intros m; simpl.
  - now left.
  - destruct (IH (if m <? h then h else m)) as [E|HIn].
    + destruct (m <? h); rewrite <- E; auto.
    + auto.
Qed.

(** No element compares greater than the result. *)
Lemma max_from_upper (l : list float) : forall m,
  Forall (fun h => (max_from m l <? h) = false) (m :: l).
Proof.
  induction l as [|h l IH]; intros m; simpl.
  - constructor; [apply ltb_irrefl | constructor].
  - specialize (IH (if m <? h then h else m)).
    inversion IH as [|? ? Hhd Htl]; subst.
    destruct (m <? h) eqn:Hmh.
    + constructor; [|constructor; assumption].
      destruct (max_from h l <? m) eqn:E; [|reflexivity].
      rewrite (ltb_trans _ _ _ E Hmh) in Hhd. discriminate.
    + constructor; [assumption|constructor; [|assumption]].
      destruct (is_nan m) eqn:Hn.
      * rewrite (max_from_nan l m Hn). now apply nan_ltb.
      * now apply (ltb_neg_trans _ m).
Qed.

Lemma py_max_In (l : list float) (m : float) :
  py_max l = Some m -> In m l.
Proof.
  destruct l as [|h l]; simpl; intros H; [discriminate|].
  injection H as <-. apply max_from_In.
Qed.

Lemma py_max_upper (l : list float) (m : float) :
  py_max l = Some m -> Forall (fun h => (m <? h) = false) l.
Proof.
  destruct l as [|h l]; simpl; intros H; [discriminate|].
  injection H as <-. apply max_from_upper.
Qed.
End RunningMaximum.

(** ** The result monad *)

Lemma bind_Ok {A B : Type} (m : res A) (k : A -> res B) (b : B) :
  bind m k = Ok b -> exists a, m = Ok a /\ k a = Ok b.
Proof. destruct m as [a|e]; simpl; intros H; [eauto|discriminate]. Qed.

Lemma bind_Raise {A B : Type} (m : res A) (k : A -> res B) (e : exn) :
  bind m k = Raise e ->
  m = Raise e \/ exists a, m = Ok a /\ k a = Raise e.
Proof. destruct m as [a|e']; simpl; intros H; [eauto|left; congruence]. Qed.

(** ** The loop *)

Section Loop.
Variable R : runtime.
Variable p : params.
Local Open Scope float_scope.

Lemma euler_loop_exit (fuel : nat) (s : state) :
  above_ground (st_y s) = false -> euler_loop R fuel p s = Some (Ok s).
Proof.
  unfold above_ground. intros H. destruct fuel; simpl; now rewrite H.
Qed.

Lemma euler_loop_enter (fuel : nat) (s s' : state) :
  above_ground (st_y s) = true -> euler_step R p s = Ok s' ->
  euler_loop R (S fuel) p s = euler_loop R fuel p s'.
Proof. unfold above_ground. intros H E. simpl. now rewrite H, E. Qed.

(** The first [n] iterations can be skipped once their end is known. *)
Lemma euler_loop_skip (s0 : state) (n : nat) (s : state) :
  reaches R p s0 n s ->
  forall fuel, euler_loop R (n + fuel) p s0 = euler_loop R fuel p s.
Proof.
  induction 1 as [|n s s' _ IH Hg Hstep]; intros fuel.
  - reflexivity.
  - replace (S n + fuel)%nat with (n + S fuel)%nat by lia.
    rewrite IH. now apply euler_loop_enter.
Qed.

(** A loop that returns went through finitely many iterations and stopped
    at the first state whose height fails the condition. *)
Lemma euler_loop_reaches (fuel : nat) : forall s0 n s s',
  reaches R p s0 n s ->
  euler_loop R fuel p s = Some (Ok s') ->
  exists k, (k <= fuel)%nat /\ reaches R p s0 (n + k) s' /\
            above_ground (st_y s') = false.
Proof.
  induction fuel as [|fuel IH]; intros s0 n s s' Hr; simpl;
    destruct (0 <=? st_y s) eqn:Hg.
  - discriminate.
  - intros [= <-]. exists 0%nat. rewrite Nat.add_0_r. auto.
  - destruct (euler_step R p s) as [s1|e] eqn:Hstep; [|discriminate].
    intros Hloop.
    destruct (IH s0 (S n) s1 s' (reaches_S R p s0 n s s1 Hr Hg Hstep) Hloop)
      as (k & Hk & Hr' & Hg').
    exists (S k). replace (n + S k)%nat with (S n + k)%nat by lia.
    split; [lia|auto].
  - intros [= <-]. exists 0%nat. rewrite Nat.add_0_r. split; [lia|auto].
Qed.

Lemma reaches_functional (s0 : state) (n : nat) (s : state) :
  reaches R p s0 n s -> forall s', reaches R p s0 n s' -> s = s'.
Proof.
  induction 1 as [|n s1 s2 _ IH Hg Hstep]; intros s' H'.
  - now inversion H'.
  - inversion H' as [|? s1' ? Hr' Hg' Hstep']; subst.
    specialize (IH _ Hr'). subst s1'. congruence.
Qed.

(** Every state before the last one reached had its height at or above
    ground. *)
Lemma reaches_prefix (s0 : state) (n : nat) (s : state) :
  reaches R p s0 n s ->
  forall k, (k < n)%nat ->
  exists sk, reaches R p s0 k sk /\ above_ground (st_y sk) = true.
Proof.
  induction 1 as [|n s1 s2 Hr IH Hg Hstep]; intros k Hk; [lia|].
  destruct (Nat.eq_dec k n) as [->|Hne].
  - eauto.
  - apply IH. lia.
Qed.

(** The number of iterations a terminating loop takes is determined. *)
Lemma reaches_exit_unique (s0 : state) (n n' : nat) (s s' : state) :
  reaches R p s0 n s -> above_ground (st_y s) = false ->
  reaches R p s0 n' s' -> above_ground (st_y s') = false ->
  n = n' /\ s = s'.
Proof.
  intros Hr Hg Hr' Hg'.
  assert (n = n') as <-.
  { destruct (Nat.lt_trichotomy n n') as [Hlt|[E|Hlt]]; [|exact E|].
    - destruct (reaches_prefix _ _ _ Hr' n Hlt) as (sk & Hk & Hgk).
      rewrite (reaches_functional _ _ _ Hr _ Hk) in Hg. congruence.
    - destruct (reaches_prefix _ _ _ Hr n' Hlt) as (sk & Hk & Hgk).
      rewrite (reaches_functional _ _ _ Hr' _ Hk) in Hg'. congruence. }
  split; [reflexivity|]. now apply (reaches_functional s0 n).
Qed.

(** What one pass through the body does to the locals. *)
Lemma euler_step_inv (s s' : state) :
  euler_step R p s = Ok s' ->
  exists v drag_force ax ay,
    Py.norm R (st_vx s) (st_vy s) = Ok v /\
    calculate_drag_force R v p = Ok drag_force /\
    acceleration p (st_vx s) (st_vy s) v drag_force = Ok (ax, ay) /\
    st_vx s' = st_vx s + ax * p_dt p /\
    st_vy s' = st_vy s + ay * p_dt p /\
    st_x s' = st_x s + st_vx s' * p_dt p /\
    st_y s' = st_y s + st_vy s' * p_dt p /\
    st_t s' = st_t s + p_dt p /\
    st_trajectory s' = st_trajectory s ++ [(st_x s', st_y s')] /\
    st_times s' = st_times s ++ [st_t s'] /\
    st_max_height s' =
      (if st_max_height s <? st_y s' then st_y s' else st_max_height s).
Proof.
  unfold euler_step. intros H.
  apply bind_Ok in H as (v & Hv & H).
  apply bind_Ok in H as (drag_force & Hd & H).
  apply bind_Ok in H as ([ax ay] & Ha & H).
  injection H as <-. simpl.
  exists v, drag_force, ax, ay. repeat split; assumption.
Qed.

Lemma loop_inv_step (n : nat) (s s' : state) :
  loop_inv (p_dt p) n s ->
  above_ground (st_y s) = true ->
  euler_step R p s = Ok s' ->
  loop_inv (p_dt p) (S n) s'.
Proof.
  intros ((pre & Htr & Hlen & Hpre) & Hhd & Hmax & Ht) Hg Hstep.
  apply euler_step_inv in Hstep
    as (v & d & ax & ay & _ & _ & _ & _ & _ & _ & _ & Ht' & Htr' & _ & Hmh').
  unfold loop_inv. rewrite Htr', Hmh', Ht'. repeat split.
  - exists (st_trajectory s). repeat split.
    + rewrite Htr, length_app. simpl. lia.
    + rewrite Htr. apply Forall_app. split; [assumption|].
      constructor; [exact Hg|constructor].
  - destruct (st_trajectory s); [discriminate|exact Hhd].
  - unfold heights. rewrite map_app. simpl.
    now apply py_max_snoc.
  - rewrite Ht. reflexivity.
Qed.

Lemma initial_inv (s0 : state) :
  initial R p = Ok s0 ->
  s0 = State 0 0 (st_vx s0) (st_vy s0) [(0, 0)] [0] 0 0 /\
  loop_inv (p_dt p) 0 s0.
Proof.
  unfold initial. intros H.
  apply bind_Ok in H as (c & _ & H).
  apply bind_Ok in H as (sn & _ & H).
  injection H as <-. split; [reflexivity|].
  unfold loop_inv; simpl. repeat split.
  exists []. repeat split. constructor.
Qed.

Lemma reaches_inv (s0 : state) (n : nat) (s : state) :
  loop_inv (p_dt p) 0 s0 -> reaches R p s0 n s -> loop_inv (p_dt p) n s.
Proof.
  intros H0. induction 1 as [|n s s' _ IH Hg Hstep]; [assumption|].
  now apply (loop_inv_step n s).
Qed.

(** A run that returns a result: its loop ended in a state [s], after [n]
    iterations, whose height fails the condition. *)
Lemma simulate_inv (fuel : nat) (r : SimulationResult) :
  simulate R fuel p = Some (Ok r) ->
  exists s0 n s,
    initial R p = Ok s0 /\ (n <= fuel)%nat /\ reaches R p s0 n s /\
    above_ground (st_y s) = false /\ finish R p s = Ok r.
Proof.
  unfold simulate. destruct (initial R p) as [s0|e] eqn:Hi; [|discriminate].
  destruct (euler_loop R fuel p s0) as [[s|e]|] eqn:Hl; try discriminate.
  intros [= Hf].
  destruct (euler_loop_reaches fuel s0 0 s0 s (reaches_O R p s0) Hl)
    as (k & Hk & Hr & Hg).
  exists s0, k, s. auto.
Qed.

(** The loop is entered at least once: the launch point is at height 0. *)
Lemma reaches_exit_positive (s0 : state) (n : nat) (s : state) :
  initial R p = Ok s0 -> reaches R p s0 n s ->
  above_ground (st_y s) = false ->
  exists n' s', n = S n' /\ reaches R p s0 n' s' /\
                above_ground (st_y s') = true /\ euler_step R p s' = Ok s.
Proof.
  intros Hi Hr Hg. destruct Hr as [|n s1 s2 Hr Hg1 Hstep].
  - apply initial_inv in Hi as (E & _). rewrite E in Hg. discriminate.
  - exists n, s1. auto.
Qed.

Lemma finish_inv (s : state) (r : SimulationResult) :
  finish R p s = Ok r ->
  dt r = p_dt p /\ trajectory r = st_trajectory s /\
  f_range r = st_x s /\ max_height r = st_max_height s /\
  (if st_y s <=? 0 then Py.norm R (st_vx s) (st_vy s) else Ok 0)
  = Ok (final_speed r).
Proof.
  unfold finish. intros H. apply bind_Ok in H as (fs & Hfs & H).
  injection H as <-. simpl. auto.
Qed.
End Loop.

(** ** Facts about the reference inputs *)

Section ReferenceRuns.
Local Open Scope float_scope.

Lemma default_entries_parse :
  get_parameters Ref.rt Ref.default_entries = inr Ref.default_params.
Proof. reflexivity. Qed.

Lemma short_hop_reaches :
  initial Ref.rt Ref.short_hop = Ok Ref.short_hop_0 /\
  reaches Ref.rt Ref.short_hop Ref.short_hop_0 2 Ref.short_hop_2 /\
  above_ground (st_y Ref.short_hop_2) = false.
Proof.
  split; [reflexivity|]. split; [|reflexivity].
  apply (reaches_S _ _ _ 1 Ref.short_hop_1); [|reflexivity|reflexivity].
  apply (reaches_S _ _ _ 0 Ref.short_hop_0); [|reflexivity|reflexivity].
  apply reaches_O.
Qed.

Lemma short_hop_simulate :
  simulate Ref.rt 2 Ref.short_hop = Some (Ok Ref.short_hop_result).
Proof. reflexivity. Qed.

(** The form's defaults with step 0.01 s: the loop makes 1229 iterations,
    no fewer. *)
Example default_run_lands :
  simulate Ref.rt 1228 Ref.default_params = None /\
  option_map (fun o => match o with
                       | Ok r => Some (List.length (trajectory r))
                       | Raise _ => None
                       end)
             (simulate Ref.rt 1229 Ref.default_params)
  = Some (Some 1230%nat).
Proof. split; vm_compute; reflexivity. Qed.

(** With the smallest positive step every update of the first iteration
    is absorbed by rounding: position and velocity come out unchanged,
    whatever the time and the lists are. *)
Lemma tiny_step_stalls (tr : list (float * float)) (ts : list float)
      (t : float) :
  let vx := 0x1.6a09e667f3bcdp-2 in
  let vy := 0x1.6a09e667f3bccp-2 in
  euler_step Ref.rt Ref.tiny_step (State 0 0 vx vy tr ts t 0) =
  Ok (State 0 0 vx vy (tr ++ [(0, 0)]) (ts ++ [t + 5e-324]) (t + 5e-324) 0).
Proof. reflexivity. Qed.

Lemma tiny_step_loop (fuel : nat) :
  forall tr ts t,
    euler_loop Ref.rt fuel Ref.tiny_step
      (State 0 0 0x1.6a09e667f3bcdp-2 0x1.6a09e667f3bccp-2 tr ts t 0) = None.
Proof.
  induction fuel as [|fuel IH]; intros tr ts t; [reflexivity|].
  erewrite euler_loop_enter;
    [apply IH | reflexivity | apply tiny_step_stalls].
Qed.
End ReferenceRuns.

(** * The claims *)

Local Open Scope float_scope.

(** ** More of the order on binary64 values *)

Lemma SFcompare_antisym (a b : spec_float) :
  SFcompare a b = option_map CompOpp (SFcompare b a).
Proof.
  destruct a as [[|]|[|]| |[|] m1 e1], b as [[|]|[|]| |[|] m2 e2];
    try reflexivity; unfold SFcompare;
    change PosDef.Pos.compare_cont with Pos.compare_cont;
    change (Pos.compare_cont Eq) with Pos.compare;
    rewrite (Z.compare_antisym e1 e2), (Pos.compare_antisym m1 m2);
    destruct (e1 ?= e2)%Z; simpl; try reflexivity;
    destruct (m1 ?= m2)%positive; reflexivity.
Qed.

Lemma SFcompare_None (a b : spec_float) :
  SFcompare a b = None <-> a = S754_nan \/ b = S754_nan.
Proof.
  destruct a as [[|]|[|]| |[|] m1 e1], b as [[|]|[|]| |[|] m2 e2];
    simpl; split; intros H; try discriminate; auto;
    destruct H as [H|H]; discriminate.
Qed.

(** Between two numbers, "not at most" is "greater". *)
Lemma not_leb_ltb (a b : float) :
  is_nan a = false -> is_nan b = false ->
  (a <=? b) = false -> (b <? a) = true.
Proof.
  rewrite !is_nan_spec, leb_spec, ltb_spec. unfold SFleb, SFltb.
  intros Ha Hb. rewrite (SFcompare_antisym (Prim2SF b) (Prim2SF a)).
  destruct (SFcompare (Prim2SF a) (Prim2SF b)) as [[| |]|] eqn:E;
    simpl; try discriminate; try reflexivity.
  apply SFcompare_None in E as [E|E]; rewrite E in *; discriminate.
Qed.

Lemma ltb_not_leb (a b : float) : (b <? a) = true -> (a <=? b) = false.
Proof.
  rewrite leb_spec, ltb_spec. unfold SFleb, SFltb.
  rewrite (SFcompare_antisym (Prim2SF b) (Prim2SF a)).
  destruct (SFcompare (Prim2SF a) (Prim2SF b)) as [[| |]|];
    simpl; try discriminate; reflexivity.
Qed.

Lemma ltb_not_nan_l (a b : float) : (a <? b) = true -> is_nan a = false.
Proof.
  rewrite is_nan_spec, ltb_spec.
  destruct (Prim2SF a); try reflexivity. discriminate.
Qed.

(** ** C1: termination *)


(** A loop that raises did so in the body, entered with the condition
    true after finitely many complete iterations. *)
Lemma euler_loop_raises (R : runtime) (p : params) (fuel : nat) :
  forall s0 n s e,
    reaches R p s0 n s ->
    euler_loop R fuel p s = Some (Raise e) ->
    exists k s',
      (n + k < n + fuel)%nat /\ reaches R p s0 (n + k) s' /\
      above_ground (st_y s') = true /\ euler_step R p s' = Raise e.
Proof.
  induction fuel as [|fuel IH]; intros s0 n s e Hr; simpl;
    destruct (0 <=? st_y s) eqn:Hg; try discriminate.
  destruct (euler_step R p s) as [s1|e1] eqn:Hstep.
  - intros Hl.
    destruct (IH s0 (S n) s1 e (reaches_S R p s0 n s s1 Hr Hg Hstep) Hl)
      as (k & s' & Hk & Hr' & Hg' & He).
    exists (S k), s'. replace (n + S k)%nat with (S n + k)%nat by lia.
    split; [lia|auto].
  - intros [= <-]. exists 0%nat, s. rewrite Nat.add_0_r.
    split; [lia|auto].
Qed.

(** ** Finitely many states of motion *)

Section FiniteMotion.
Local Open Scope Z_scope.

Lemma digits2_pos_bound (m : positive) :
  Z.pos m < 2 ^ Z.pos (digits2_pos m).
Proof.
  induction m as [m IH|m IH|]; cbn [digits2_pos];
    rewrite ?Pos2Z.inj_succ, ?Z.pow_succ_r by lia; lia.
Qed.

Lemma valid_finite_bounds (s : bool) (m : positive) (e : Z) :
  valid_binary (S754_finite s m e) = true ->
  Z.pos m < 2 ^ 53 /\ emin <= e <= 971.
Proof.
  unfold valid_binary, SpecFloat.valid_binary, bounded, canonical_mantissa,
    fexp.
  intros H. apply andb_prop in H as (Hc & He).
  apply Z.eqb_eq in Hc. apply Z.leb_le in He.
  change (SpecFloat.emin prec emax) with (-1074) in *.
  change IntDef.Z.max with Z.max in Hc.
  change IntDef.Z.sub with Z.sub in Hc.
  change IntDef.Z.add with Z.add in Hc.
  change (emax - prec) with 971 in He. change prec with 53 in Hc.
  assert (Hd : Z.pos (digits2_pos m) <= 53) by lia.
  split; [|lia].
  apply (Z.lt_le_trans _ _ _ (digits2_pos_bound m)).
  apply Z.pow_le_mono_r; lia.
Qed.

Lemma float_code_range (x : float) : 0 <= float_code x < 2 ^ 66.
Proof.
  unfold float_code. pose proof (Prim2SF_valid x) as Hv.
  destruct (Prim2SF x) as [[|]|[|]| |s m e]; try (cbn; lia).
  apply valid_finite_bounds in Hv as (Hm & He).
  change emin with (-1074) in *.
  assert (0 <= Z.b2z s <= 1) by (destruct s; cbn; lia).
  change (2 ^ 53) with 9007199254740992 in *.
  change (2 ^ 66) with 73786976294838206464. lia.
Qed.

Lemma float_code_inj (x y : float) : float_code x = float_code y -> x = y.
Proof.
  unfold float_code. intros H. apply Prim2SF_inj.
  pose proof (Prim2SF_valid x) as Hx. pose proof (Prim2SF_valid y) as Hy.
  destruct (Prim2SF x) as [[|]|[|]| |s1 m1 e1],
           (Prim2SF y) as [[|]|[|]| |s2 m2 e2];
    try reflexivity;
    try (apply valid_finite_bounds in Hx as (Hm1 & He1));
    try (apply valid_finite_bounds in Hy as (Hm2 & He2));
    change emin with (-1074) in *;
    change (2 ^ 53) with 9007199254740992 in *;
    try (cbn [Z.b2z] in H; lia);
    try (destruct s1; cbn [Z.b2z] in H; lia);
    try (destruct s2; cbn [Z.b2z] in H; lia).
  assert (s1 = s2) as <- by (destruct s1, s2; cbn [Z.b2z] in H; lia || reflexivity).
  assert (Z.pos m1 = Z.pos m2 /\ e1 = e2) as ([= <-] & <-) by lia.
  reflexivity.
Qed.

Lemma motion_code_range (k : float * float * float * float) :
  0 <= motion_code k < 2 ^ 264.
Proof.
  destruct k as [[[x y] vx] vy]. unfold motion_code.
  pose proof (float_code_range x). pose proof (float_code_range y).
  pose proof (float_code_range vx). pose proof (float_code_range vy).
  change (2 ^ 264) with (2 ^ 66 * (2 ^ 66 * (2 ^ 66 * 2 ^ 66))).
  set (B := 2 ^ 66) in *. assert (0 < B) by (subst B; lia). nia.
Qed.

Lemma motion_code_inj (k k' : float * float * float * float) :
  motion_code k = motion_code k' -> k = k'.
Proof.
  destruct k as [[[x y] vx] vy], k' as [[[x' y'] vx'] vy'].
  unfold motion_code. intros H.
  pose proof (float_code_range x). pose proof (float_code_range y).
  pose proof (float_code_range vx). pose proof (float_code_range vy).
  pose proof (float_code_range x'). pose proof (float_code_range y').
  pose proof (float_code_range vx'). pose proof (float_code_range vy').
  change (2 ^ 66) with 73786976294838206464 in *.
  assert (float_code x = float_code x' /\ float_code y = float_code y' /\
          float_code vx = float_code vx' /\ float_code vy = float_code vy')
    as (E1 & E2 & E3 & E4) by lia.
  apply float_code_inj in E1, E2, E3, E4. congruence.
Qed.

Lemma motion_states_Z : Z.of_nat motion_states = 2 ^ 264.
Proof. unfold motion_states. apply Z2Nat.id. apply Z.pow_nonneg. lia. Qed.

(* The bound is only ever compared, never counted out. *)
Global Opaque motion_states.

(** More values than there are numbers below [n]: two of them agree. *)
Lemma pigeonhole (l : list Z) (n : nat) :
  (forall z, In z l -> 0 <= z < Z.of_nat n) ->
  (n < List.length l)%nat ->
  exists a l1 l2 l3, l = l1 ++ a :: l2 ++ a :: l3.
Proof.
  intros Hrange Hlen. apply (not_NoDup Z.eq_decidable). intros Hnd.
  assert (Hincl : incl l (map Z.of_nat (seq 0 n))).
  { intros z Hz. apply Hrange in Hz.
    replace z with (Z.of_nat (Z.to_nat z)) by lia.
    apply in_map, in_seq. lia. }
  pose proof (NoDup_incl_length Hnd Hincl) as Hle.
  rewrite length_map, length_seq in Hle. lia.
Qed.
End FiniteMotion.

(** ** Termination *)

(** A loop still running after [fuel] iterations has made them all. *)
Lemma euler_loop_running (R : runtime) (p : params) (fuel : nat) :
  forall s0 n s,
    reaches R p s0 n s ->
    euler_loop R fuel p s = None ->
    exists s', reaches R p s0 (n + fuel) s' /\
               above_ground (st_y s') = true.
Proof.
  induction fuel as [|fuel IH]; intros s0 n s Hr; simpl;
    destruct (0 <=? st_y s) eqn:Hg; try discriminate.
  - intros _. exists s. rewrite Nat.add_0_r. auto.
  - destruct (euler_step R p s) as [s1|e] eqn:Hstep; [|discriminate].
    intros Hl.
    destruct (IH s0 (S n) s1 (reaches_S R p s0 n s s1 Hr Hg Hstep) Hl)
      as (s' & Hr' & Hg').
    exists s'. now replace (n + S fuel)%nat with (S n + fuel)%nat by lia.
Qed.

(** The states passed on the way, as a list. *)
Lemma reaches_trace (R : runtime) (p : params) (s0 : state)
      (n : nat) (s : state) :
  reaches R p s0 n s ->
  exists tr,
    List.length tr = S n /\
    forall i, (i <= n)%nat -> reaches R p s0 i (nth i tr s0).
Proof.
  induction 1 as [|n s s' Hr (tr & Hlen & Htr) Hg Hstep].
  - exists [s0]. split; [reflexivity|].
    intros i Hi. replace i with 0%nat by lia. apply reaches_O.
  - exists (tr ++ [s']). split; [rewrite length_app; simpl; lia|].
    intros i Hi. destruct (Nat.eq_dec i (S n)) as [->|Hne].
    + rewrite app_nth2 by lia. rewrite Hlen, Nat.sub_diag. simpl.
      now apply (reaches_S R p s0 n s).
    + rewrite app_nth1 by lia. apply Htr. lia.
Qed.

(** Among more than [motion_states] states passed, two are in the same
    state of motion. *)
Lemma reaches_recurrence (R : runtime) (p : params) (s0 : state)
      (n : nat) (s : state) :
  reaches R p s0 n s -> (motion_states <= n)%nat ->
  exists i j si sj,
    (i < j <= n)%nat /\ reaches R p s0 i si /\ reaches R p s0 j sj /\
    motion si = motion sj.
Proof.
  intros Hr Hn.
  destruct (reaches_trace R p s0 n s Hr) as (tr & Hlen & Htr).
  set (code := fun t => motion_code (motion t)).
  destruct (pigeonhole (map code tr) motion_states)
    as (a & l1 & l2 & l3 & Hsplit).
  { intros z Hz. apply in_map_iff in Hz as (t & <- & _).
    rewrite motion_states_Z. apply motion_code_range. }
  { rewrite length_map. lia. }
  assert (Hlens : List.length (map code tr)
                  = (List.length l1 + S (List.length l2 + S (List.length l3)))%nat).
  { rewrite Hsplit, length_app. simpl. rewrite length_app. reflexivity. }
  rewrite length_map in Hlens.
  set (i := List.length l1). set (j := (i + S (List.length l2))%nat).
  assert (Hi : nth i (map code tr) (code s0) = a).
  { rewrite Hsplit, app_nth2 by (unfold i; lia).
    unfold i. now rewrite Nat.sub_diag. }
  assert (Hj : nth j (map code tr) (code s0) = a).
  { rewrite Hsplit, app_nth2 by (unfold j, i; lia).
    replace (j - List.length l1)%nat with (S (List.length l2))
      by (unfold j, i; lia).
    cbn [nth]. rewrite app_nth2 by lia. now rewrite Nat.sub_diag. }
  rewrite map_nth in Hi, Hj.
  exists i, j, (nth i tr s0), (nth j tr s0).
  assert (j <= n)%nat by (unfold j, i in *; lia).
  repeat split; try (apply Htr); try (unfold j; lia).
  apply motion_code_inj. unfold code in Hi, Hj. congruence.
Qed.

(** The next state of motion, and whether the body raises, depend on the
    state of motion only. *)
Lemma euler_step_motion (R : runtime) (p : params) (s1 s2 s1' : state) :
  motion s1 = motion s2 ->
  euler_step R p s1 = Ok s1' ->
  exists s2', euler_step R p s2 = Ok s2' /\ motion s1' = motion s2'.
Proof.
  destruct s1 as [x1 y1 vx1 vy1 tr1 ts1 t1 m1],
           s2 as [x2 y2 vx2 vy2 tr2 ts2 t2 m2].
  unfold motion. cbn [st_x st_y st_vx st_vy].
  intros [= -> -> -> ->]. unfold euler_step. cbn [st_x st_y st_vx st_vy].
  destruct (Py.norm R vx2 vy2) as [v|e]; [|discriminate]. cbn [bind].
  destruct (calculate_drag_force R v p) as [d|e]; [|discriminate].
  cbn [bind].
  destruct (acceleration p vx2 vy2 v d) as [[ax ay]|e]; [|discriminate].
  cbn [bind]. intros [= <-]. eexists. split; reflexivity.
Qed.

(** Once a state of motion recurs before the loop has stopped, the loop
    goes on for any number of iterations. *)
Lemma recurrence_goes_on (R : runtime) (p : params) (s0 : state)
      (i j : nat) (si sj : state) :
  (i < j)%nat -> reaches R p s0 i si -> reaches R p s0 j sj ->
  motion si = motion sj ->
  forall k, exists a b,
    reaches R p s0 (i + k) a /\ reaches R p s0 (j + k) b /\
    motion a = motion b.
Proof.
  intros Hij Hi Hj Hm. induction k as [|k (a & b & Ha & Hb & Hab)].
  - exists si, sj. now rewrite !Nat.add_0_r.
  - destruct (reaches_prefix R p s0 (j + k) b Hb (i + k)) as (a0 & Ha0 & Hg);
      [lia|].
    rewrite (reaches_functional R p s0 _ _ Ha0 _ Ha) in Hg.
    assert (Hnext : exists a', reaches R p s0 (S (i + k)) a').
    { destruct (Nat.eq_dec (S (i + k)) (j + k)) as [E|Hne].
      - exists b. now rewrite E.
      - destruct (reaches_prefix R p s0 (j + k) b Hb (S (i + k)))
          as (a' & Ha' & _); [lia|eauto]. }
    destruct Hnext as (a' & Ha').
    inversion Ha' as [|? a1 ? Ha1 Hg1 Hstep1]; subst.
    rewrite (reaches_functional R p s0 _ _ Ha1 _ Ha) in Hstep1.
    destruct (euler_step_motion R p a b a' Hab Hstep1) as (b' & Hstepb & Hab').
    assert (Hgb : above_ground (st_y b) = true).
    { replace (st_y b) with (st_y a); [assumption|].
      unfold motion in Hab. congruence. }
    exists a', b'. rewrite !Nat.add_succ_r.
    split; [assumption|]. split; [|assumption].
    now apply (reaches_S R p s0 (j + k) b).
Qed.

Lemma recurrence_never_lands (R : runtime) (p : params) (s0 : state)
      (i j : nat) (si sj : state) :
  (i < j)%nat -> reaches R p s0 i si -> reaches R p s0 j sj ->
  motion si = motion sj ->
  forall fuel, euler_loop R fuel p s0 = None.
Proof.
  intros Hij Hi Hj Hm fuel.
  destruct (recurrence_goes_on R p s0 i j si sj Hij Hi Hj Hm (S fuel))
    as (a & b & _ & Hb & _).
  destruct (reaches_prefix R p s0 _ b Hb fuel) as (c & Hc & Hg); [lia|].
  rewrite <- (Nat.add_0_r fuel), (euler_loop_skip R p s0 fuel c Hc).
  unfold above_ground in Hg. simpl. now rewrite Hg.
Qed.


(** The three states [Ref.short_hop] passes through. *)
Lemma short_hop_states (n : nat) (s : state) :
  reaches Ref.rt Ref.short_hop Ref.short_hop_0 n s ->
  (n = 0%nat /\ s = Ref.short_hop_0) \/
  (n = 1%nat /\ s = Ref.short_hop_1) \/
  (n = 2%nat /\ s = Ref.short_hop_2).
Proof.
  intros Hr. destruct short_hop_reaches as (_ & H2 & Hg2).
  assert (H1 : reaches Ref.rt Ref.short_hop Ref.short_hop_0 1
                       Ref.short_hop_1).
  { apply (reaches_S _ _ _ 0 Ref.short_hop_0);
      [apply reaches_O|reflexivity|reflexivity]. }
  destruct n as [|[|[|n]]].
  - left. split; [reflexivity|]. now inversion Hr.
  - right; left. split; [reflexivity|].
    now apply (reaches_functional Ref.rt Ref.short_hop Ref.short_hop_0 1).
  - right; right. split; [reflexivity|].
    now apply (reaches_functional Ref.rt Ref.short_hop Ref.short_hop_0 2).
  - destruct (reaches_prefix _ _ _ _ _ Hr 2) as (s2 & Hs2 & Hg); [lia|].
    rewrite (reaches_functional _ _ _ _ _ Hs2 _ H2) in Hg. congruence.
Qed.

Lemma short_hop_safe (n : nat) (s : state) :
  reaches Ref.rt Ref.short_hop Ref.short_hop_0 n s ->
  above_ground (st_y s) = true ->
  exists s', euler_step Ref.rt Ref.short_hop s = Ok s'.
Proof.
  intros Hr Hg.
  destruct (short_hop_states n s Hr) as [(_ & ->)|[(_ & ->)|(_ & ->)]].
  - exists Ref.short_hop_1. reflexivity.
  - exists Ref.short_hop_2. reflexivity.
  - discriminate.
Qed.

Lemma short_hop_fresh (i j : nat) (si sj : state) :
  (i < j)%nat ->
  reaches Ref.rt Ref.short_hop Ref.short_hop_0 i si ->
  reaches Ref.rt Ref.short_hop Ref.short_hop_0 j sj ->
  motion si <> motion sj.
Proof.
  intros Hij Hi Hj E.
  apply (f_equal (fun k => fst (fst (fst k)))) in E.
  destruct (short_hop_states i si Hi) as [(-> & ->)|[(-> & ->)|(-> & ->)]];
    destruct (short_hop_states j sj Hj) as [(-> & ->)|[(-> & ->)|(-> & ->)]];
    try lia;
    try (apply (f_equal (fun x => x =? 0)) in E; vm_compute in E;
         discriminate);
    apply (f_equal (fun x => x =? st_x Ref.short_hop_1)) in E;
    vm_compute in E; discriminate.
Qed.


(** Neither condition comes with validation: [Ref.tiny_step] is back in
    its launch state of motion after one iteration. *)
Example tiny_step_recurs :
  exists s0 s1,
    initial Ref.rt Ref.tiny_step = Ok s0 /\
    reaches Ref.rt Ref.tiny_step s0 1 s1 /\
    motion s0 = motion s1.
Proof.
  exists (Ref.state_after 0 Ref.tiny_step), (Ref.state_after 1 Ref.tiny_step).
  split; [reflexivity|]. split; [|reflexivity].
  apply (reaches_S _ _ _ 0 (Ref.state_after 0 Ref.tiny_step));
    [apply reaches_O|reflexivity|reflexivity].
Qed.

(** ** C2: the shape of the trajectory *)




(** ** C3: the final speed *)




(** ** C4: the maximum height *)

(** C4: the stored maximum height is the maximum of the heights of the
    trajectory, the launch sample at height 0 included: it is what
    Python's [max] returns on them, it is one of them, and none of them
    compares greater. *)
Theorem max_height_is_maximum
        (R : runtime) (p : params) (fuel : nat) (r : SimulationResult) :
  simulate R fuel p = Some (Ok r) ->
  hd_error (trajectory r) = Some (0, 0) /\
  py_max (heights (trajectory r)) = Some (max_height r) /\
  In (max_height r) (heights (trajectory r)) /\
  Forall (fun h => (max_height r <? h) = false) (heights (trajectory r)).
Proof.
  intros H.
  apply simulate_inv in H as (s0 & n & s & Hi & _ & Hr & _ & Hf).
  destruct (initial_inv R p s0 Hi) as (_ & H0).
  destruct (reaches_inv R p s0 _ s H0 Hr) as (_ & Hhd & Hmax & _).
  apply finish_inv in Hf as (_ & -> & _ & -> & _).
  split; [assumption|]. split; [assumption|].
  split; [now apply py_max_In | now apply py_max_upper].
Qed.

Lemma max_height_is_maximum_witness :
  simulate Ref.rt 2 Ref.short_hop = Some (Ok Ref.short_hop_result) /\
  hd_error (trajectory Ref.short_hop_result) = Some (0, 0) /\
  py_max (heights (trajectory Ref.short_hop_result))
  = Some (max_height Ref.short_hop_result) /\
  In (max_height Ref.short_hop_result)
     (heights (trajectory Ref.short_hop_result)) /\
  Forall (fun h => (max_height Ref.short_hop_result <? h) = false)
         (heights (trajectory Ref.short_hop_result)).
Proof.
  split; [reflexivity|].
  apply (max_height_is_maximum Ref.rt Ref.short_hop 2).
  reflexivity.
Defined.

(** ** C5: acceleration at zero speed *)

Lemma eqb_zero_not_nan (v : float) : (v =? 0) = true -> is_nan v = false.
Proof.
  rewrite is_nan_spec, eqb_spec, Prim2SF_zero.
  destruct (Prim2SF v) as [[|]|[|]| |[|] ? ?]; simpl;
    try discriminate; reflexivity.
Qed.

Lemma eqb_zero_not_inf (v : float) : (v =? 0) = true -> is_infinity v = false.
Proof.
  unfold is_infinity. rewrite !eqb_spec, abs_spec, Prim2SF_zero.
  change (Prim2SF infinity) with (S754_infinity false).
  destruct (Prim2SF v) as [[|]|[|]| |[|] ? ?]; simpl;
    try discriminate; reflexivity.
Qed.

Lemma pow2_zero (R : runtime) (v : float) :
  (v =? 0) = true -> Py.pow2 R v = Ok 0.
Proof.
  intros H. unfold Py.pow2.
  now rewrite (eqb_zero_not_nan v H), (eqb_zero_not_inf v H), H.
Qed.

Lemma truediv_nonzero (a b : float) :
  (b =? 0) = false -> Py.truediv a b = Ok (a / b).
Proof. intros H. unfold Py.truediv. now rewrite H. Qed.

Lemma truediv_zero (a b : float) :
  (b =? 0) = true -> Py.truediv a b = Raise ZeroDivisionError.
Proof. intros H. unfold Py.truediv. now rewrite H. Qed.

Lemma acceleration_zero_divisor
      (p : params) (vx vy v drag_force : float) :
  (0 <? v) = true -> (p_m p * v =? 0) = true ->
  acceleration p vx vy v drag_force = Raise ZeroDivisionError.
Proof.
  intros Hv Hm. unfold acceleration.
  now rewrite Hv, (truediv_zero _ _ Hm).
Qed.

(** C5, as stated, fails in its second half.  With mass 0, and also with
    the positive mass 1e-200 at launch speed 1e-150, the parameters are
    well formed and the speed of the first iteration is positive, but the
    divisor, mass times speed, is 0.0 and the acceleration raises
    [ZeroDivisionError]. *)
Lemma positive_speed_zero_divisor :
  (well_formed Ref.zero_mass /\
   exists s0 v drag_force,
     initial Ref.rt Ref.zero_mass = Ok s0 /\
     Py.norm Ref.rt (st_vx s0) (st_vy s0) = Ok v /\
     (0 <? v) = true /\
     calculate_drag_force Ref.rt v Ref.zero_mass = Ok drag_force /\
     acceleration Ref.zero_mass (st_vx s0) (st_vy s0) v drag_force
     = Raise ZeroDivisionError) /\
  (well_formed Ref.featherweight /\
   (0 <? p_m Ref.featherweight) = true /\
   exists s0 v drag_force,
     initial Ref.rt Ref.featherweight = Ok s0 /\
     Py.norm Ref.rt (st_vx s0) (st_vy s0) = Ok v /\
     (0 <? v) = true /\
     calculate_drag_force Ref.rt v Ref.featherweight = Ok drag_force /\
     acceleration Ref.featherweight (st_vx s0) (st_vy s0) v drag_force
     = Raise ZeroDivisionError).
Proof.
  split.
  - split; [repeat split|].
    exists (Ref.state_after 0 Ref.zero_mass), 99.99999999999999,
      (0.5 * 1.29 * 0.15 * 0.01 * (99.99999999999999 * 99.99999999999999)).
    repeat split.
  - split; [repeat split|]. split; [reflexivity|].
    exists (Ref.state_after 0 Ref.featherweight), 1e-150,
      (0.5 * 1.29 * 0.15 * 0.01 * (1e-150 * 1e-150)).
    repeat split.
Qed.

(** C5, amended: when the speed is zero (either zero of binary64) the
    acceleration is exactly (0, -g) whatever the drag force and the mass,
    no division takes place and the whole iteration goes through without
    an exception.  When the speed is positive the drag term divides by
    mass times speed: the acceleration is the drag formula when that
    product is not zero, and a [ZeroDivisionError] when it is. *)
Theorem acceleration_by_speed (R : runtime) (p : params) :
  (forall vx vy v drag_force,
      (v =? 0) = true ->
      acceleration p vx vy v drag_force = Ok (0, - g)) /\
  (forall s v,
      Py.norm R (st_vx s) (st_vy s) = Ok v -> (v =? 0) = true ->
      exists s',
        euler_step R p s = Ok s' /\
        st_vx s' = st_vx s + 0 * p_dt p /\
        st_vy s' = st_vy s + - g * p_dt p) /\
  (forall vx vy v drag_force,
      (0 <? v) = true ->
      ((p_m p * v =? 0) = false ->
       acceleration p vx vy v drag_force =
         Ok (- drag_force * vx / (p_m p * v),
             - g - drag_force * vy / (p_m p * v))) /\
      ((p_m p * v =? 0) = true ->
       acceleration p vx vy v drag_force = Raise ZeroDivisionError)).
Proof.
  split; [|split].
  - intros vx vy v d Hv. unfold acceleration.
    now rewrite (eqb_zero_not_pos v Hv).
  - intros s v Hn Hv. unfold euler_step, calculate_drag_force.
    rewrite Hn. simpl. rewrite (pow2_zero R v Hv). simpl.
    unfold acceleration. rewrite (eqb_zero_not_pos v Hv). simpl.
    eexists. split; [reflexivity|]. split; reflexivity.
  - intros vx vy v d Hv. split.
    + intros Hm. unfold acceleration. rewrite Hv.
      now rewrite !(truediv_nonzero _ _ Hm).
    + now apply acceleration_zero_divisor.
Qed.

(** A body at rest on the ground: one iteration gives it the velocity
    (0, -g dt), with mass 0 as well. *)
Example at_rest_step :
  euler_step Ref.rt Ref.zero_mass Ref.at_rest =
  Ok (State 0 (- g * 0.01 * 0.01) 0 (- g * 0.01)
            [(0, 0); (0, - g * 0.01 * 0.01)] [0; 0.01] 0.01 0).
Proof. reflexivity. Qed.

(** ** C6: the order of the updates *)

(** C6: an iteration that completes advances the velocity by acceleration
    times step, then the position by the new velocity times step, then the
    time by the step, and appends the new position. *)
Theorem semi_implicit_update_order
        (R : runtime) (p : params) (s s' : state) :
  euler_step R p s = Ok s' ->
  exists v drag_force ax ay,
    Py.norm R (st_vx s) (st_vy s) = Ok v /\
    calculate_drag_force R v p = Ok drag_force /\
    acceleration p (st_vx s) (st_vy s) v drag_force = Ok (ax, ay) /\
    st_vx s' = st_vx s + ax * p_dt p /\
    st_vy s' = st_vy s + ay * p_dt p /\
    st_x s' = st_x s + st_vx s' * p_dt p /\
    st_y s' = st_y s + st_vy s' * p_dt p /\
    st_t s' = st_t s + p_dt p /\
    st_trajectory s' = st_trajectory s ++ [(st_x s', st_y s')].
Proof.
  intros H.
  destruct (euler_step_inv R p s s' H)
    as (v & d & ax & ay & Hv & Hd & Ha & Hvx & Hvy & Hx & Hy & Ht & Htr & _).
  exists v, d, ax, ay. repeat split; assumption.
Qed.

Lemma semi_implicit_update_order_witness :
  euler_step Ref.rt Ref.short_hop Ref.short_hop_0 = Ok Ref.short_hop_1 /\
  (exists v drag_force ax ay,
    Py.norm Ref.rt (st_vx Ref.short_hop_0) (st_vy Ref.short_hop_0) = Ok v /\
    calculate_drag_force Ref.rt v Ref.short_hop = Ok drag_force /\
    acceleration Ref.short_hop (st_vx Ref.short_hop_0)
                 (st_vy Ref.short_hop_0) v drag_force = Ok (ax, ay) /\
    st_vx Ref.short_hop_1 = st_vx Ref.short_hop_0 + ax * p_dt Ref.short_hop /\
    st_vy Ref.short_hop_1 = st_vy Ref.short_hop_0 + ay * p_dt Ref.short_hop /\
    st_x Ref.short_hop_1
    = st_x Ref.short_hop_0 + st_vx Ref.short_hop_1 * p_dt Ref.short_hop /\
    st_y Ref.short_hop_1
    = st_y Ref.short_hop_0 + st_vy Ref.short_hop_1 * p_dt Ref.short_hop /\
    st_t Ref.short_hop_1 = st_t Ref.short_hop_0 + p_dt Ref.short_hop /\
    st_trajectory Ref.short_hop_1
    = st_trajectory Ref.short_hop_0
        ++ [(st_x Ref.short_hop_1, st_y Ref.short_hop_1)]).
Proof.
  split; [reflexivity|].
  apply (semi_implicit_update_order Ref.rt Ref.short_hop). reflexivity.
Defined.

(** The order matters: forward Euler, with the velocity from before the
    step, puts the first sample of [Ref.short_hop] elsewhere. *)
Example explicit_euler_differs :
  explicit_position Ref.short_hop Ref.short_hop_0
  = (0.00028284271247461907, 0.00028284271247461896) /\
  (st_x Ref.short_hop_1, st_y Ref.short_hop_1)
  = (0.00028284260301448931, 3.7592603014489256e-05).
Proof. split; reflexivity. Qed.

(** ** C8: a first step that lands below ground *)

(** C8: when the first pass through the loop body completes with a
    negative height, the loop returns the state it produced for any
    positive number of iterations allowed, one iteration is the only
    number after which the loop can stop, and the trajectory is the launch
    sample (0, 0) followed by that one position. *)
Theorem first_step_below_ground
        (R : runtime) (p : params) (s0 s1 : state) :
  initial R p = Ok s0 ->
  euler_step R p s0 = Ok s1 ->
  (st_y s1 <? 0) = true ->
  reaches R p s0 1 s1 /\
  (forall n s, reaches R p s0 n s -> above_ground (st_y s) = false ->
               n = 1%nat /\ s = s1) /\
  st_trajectory s1 = [(0, 0); (st_x s1, st_y s1)] /\
  forall fuel,
    euler_loop R (S fuel) p s0 = Some (Ok s1) /\
    forall r, simulate R (S fuel) p = Some (Ok r) ->
              trajectory r = [(0, 0); (st_x s1, st_y s1)].
Proof.
  intros Hi Hstep Hneg.
  destruct (initial_inv R p s0 Hi) as (E0 & _).
  assert (Hg0 : above_ground (st_y s0) = true) by (rewrite E0; reflexivity).
  assert (Hg1 : above_ground (st_y s1) = false) by now apply ltb_zero_leb.
  assert (Hr : reaches R p s0 1 s1)
    by (apply (reaches_S R p s0 0 s0); [apply reaches_O|assumption..]).
  assert (Htr : st_trajectory s1 = [(0, 0); (st_x s1, st_y s1)]).
  { destruct (euler_step_inv R p s0 s1 Hstep)
      as (v & d & ax & ay & _ & _ & _ & _ & _ & _ & _ & _ & H & _).
    rewrite H, E0. reflexivity. }
  split; [assumption|]. split; [|split; [assumption|]].
  - intros n s Hn Hg.
    destruct (reaches_exit_unique R p s0 n 1 s s1 Hn Hg Hr Hg1); auto.
  - intros fuel.
    assert (Hl : euler_loop R (S fuel) p s0 = Some (Ok s1)).
    { rewrite (euler_loop_enter R p fuel s0 s1 Hg0 Hstep).
      now apply euler_loop_exit. }
    split; [assumption|].
    intros r. unfold simulate. rewrite Hi, Hl. intros [= Hf].
    apply finish_inv in Hf as (_ & -> & _). assumption.
Qed.

Lemma first_step_below_ground_witness :
  initial Ref.rt Ref.coarse_step = Ok Ref.coarse_step_0 /\
  euler_step Ref.rt Ref.coarse_step Ref.coarse_step_0
  = Ok Ref.coarse_step_1 /\
  (st_y Ref.coarse_step_1 <? 0) = true /\
  reaches Ref.rt Ref.coarse_step Ref.coarse_step_0 1 Ref.coarse_step_1 /\
  (forall n s,
      reaches Ref.rt Ref.coarse_step Ref.coarse_step_0 n s ->
      above_ground (st_y s) = false ->
      n = 1%nat /\ s = Ref.coarse_step_1) /\
  st_trajectory Ref.coarse_step_1
  = [(0, 0); (st_x Ref.coarse_step_1, st_y Ref.coarse_step_1)] /\
  forall fuel,
    euler_loop Ref.rt (S fuel) Ref.coarse_step Ref.coarse_step_0
    = Some (Ok Ref.coarse_step_1) /\
    forall r, simulate Ref.rt (S fuel) Ref.coarse_step = Some (Ok r) ->
              trajectory r
              = [(0, 0); (st_x Ref.coarse_step_1, st_y Ref.coarse_step_1)].
Proof.
  split; [reflexivity|]. split; [reflexivity|]. split; [reflexivity|].
  apply (first_step_below_ground Ref.rt Ref.coarse_step); reflexivity.
Defined.

(** ** C7: parameter acquisition *)

Lemma parse_all_None (R : runtime) (e : entries) :
  parse_all R e = None <-> unparsable R e.
Proof.
  unfold parse_all, unparsable.
  destruct (py_float R (e_v0 e)), (py_float R (e_angle e)),
    (py_float R (e_m e)), (py_float R (e_rho e)), (py_float R (e_C e)),
    (py_float R (e_S e)), (py_float R (e_dt e));
    split; intros H; try discriminate; try reflexivity; auto 10;
    repeat (destruct H as [H|H]; try discriminate).
Qed.

Lemma leb_not_nan (a b : float) :
  (a <=? b) = true -> is_nan a = false /\ is_nan b = false.
Proof.
  rewrite leb_spec, !is_nan_spec. unfold SFleb.
  destruct (SFcompare (Prim2SF a) (Prim2SF b)) as [c|] eqn:E;
    [|discriminate].
  intros _.
  destruct (Prim2SF a), (Prim2SF b); try discriminate; auto.
Qed.

(** The angle check fires exactly on a number that is not strictly
    between 0 and 90. *)
Lemma angle_check (a : float) :
  ((a <=? 0) || (90 <=? a)) = true <->
  is_nan a = false /\ outside_open_interval a.
Proof.
  unfold outside_open_interval. split.
  - intros H. apply orb_prop in H as [H|H].
    + split; [now apply leb_not_nan in H|].
      intros (H0 & _). apply ltb_not_leb in H0. congruence.
    + split; [now apply leb_not_nan in H|].
      intros (_ & H90). apply ltb_not_leb in H90. congruence.
  - intros (Hn & Hout).
    destruct (a <=? 0) eqn:H0; [reflexivity|].
    destruct (90 <=? a) eqn:H90; [reflexivity|].
    destruct Hout. split; now apply not_leb_ltb.
Qed.

Lemma validate_Some (p : params) :
  (exists err, validate p = Some err) <->
  ((p_dt p <=? 0) = true \/ (p_v0 p <=? 0) = true \/
   (is_nan (p_angle p) = false /\ outside_open_interval (p_angle p))).
Proof.
  rewrite <- angle_check. unfold validate.
  destruct (p_dt p <=? 0), (p_v0 p <=? 0),
    ((p_angle p <=? 0) || (90 <=? p_angle p)); split;
    try (intros _; eauto; fail);
    try (intros [err H]; discriminate);
    intros H; repeat (destruct H as [H|H]; try discriminate).
Qed.

(** What [get_parameters] does once all seven fields have parsed. *)
Lemma get_parameters_parsed (R : runtime) (e : entries) (p : params) :
  parse_all R e = Some p ->
  get_parameters R e =
  match validate p with Some err => inl err | None => inr p end.
Proof.
  unfold parse_all, get_parameters, parse.
  destruct (py_float R (e_v0 e)), (py_float R (e_angle e)),
    (py_float R (e_m e)), (py_float R (e_rho e)), (py_float R (e_C e)),
    (py_float R (e_S e)), (py_float R (e_dt e)); try discriminate.
  now intros [= <-].
Qed.

Lemma get_parameters_unparsed (R : runtime) (e : entries) :
  parse_all R e = None -> exists err, get_parameters R e = inl err.
Proof.
  unfold parse_all, get_parameters, parse.
  destruct (py_float R (e_v0 e)), (py_float R (e_angle e)),
    (py_float R (e_m e)), (py_float R (e_rho e)), (py_float R (e_C e)),
    (py_float R (e_S e)), (py_float R (e_dt e)); try discriminate; eauto.
Qed.

(** C7, as stated, fails.  With the text "nan" in the angle field all
    seven fields parse and the angle is not inside the open interval
    (0, 90), yet [get_parameters] returns the parameters, and the click
    stores a result whose trajectory ends in NaN. *)
Lemma nan_angle_is_accepted :
  parse_all Ref.rt Ref.nan_angle_entries = Some Ref.nan_angle /\
  invalid_values Ref.nan_angle /\
  get_parameters Ref.rt Ref.nan_angle_entries = inr Ref.nan_angle /\
  forall ask,
    run_simulation Ref.rt 1 [] Ref.nan_angle_entries ask =
    Some (Stored (mkSimulationResult 0.01 [(0, 0); (nan, nan)] nan 0 0),
          [mkSimulationResult 0.01 [(0, 0); (nan, nan)] nan 0 0]).
Proof.
  split; [reflexivity|]. split; [|split; [reflexivity|]].
  - right; right. intros (H & _). discriminate.
  - intros ask. reflexivity.
Qed.

(** C7, amended: [get_parameters] takes the error branch exactly when one
    of the seven fields does not parse, or all parse and the step is at
    most 0, the speed is at most 0, or the angle is a number outside the
    open interval (0, 90); a NaN angle is not rejected.  On the error
    branch [run_simulation] reports the error and leaves the stored
    results as they were.  Otherwise [get_parameters] returns the seven
    parsed values, and [run_simulation] goes on to the confirmation of a
    repeated step and to the simulation. *)
Theorem get_parameters_rejects_numbers (R : runtime) (e : entries) :
  ((exists err, get_parameters R e = inl err) <->
   (unparsable R e \/
    exists p,
      parse_all R e = Some p /\
      ((p_dt p <=? 0) = true \/ (p_v0 p <=? 0) = true \/
       (is_nan (p_angle p) = false /\
        outside_open_interval (p_angle p))))) /\
  (forall err, get_parameters R e = inl err ->
     forall fuel results ask,
       run_simulation R fuel results e ask = Some (Rejected err, results)) /\
  (forall p, get_parameters R e = inr p ->
     parse_all R e = Some p /\
     forall fuel results ask,
       run_simulation R fuel results e ask =
       if confirm_rerun (p_dt p) results ask 0 then
         match simulate R fuel p with
         | None => None
         | Some (Raise ex) => Some (Failed ex, results)
         | Some (Ok result) => Some (Stored result, results ++ [result])
         end
       else Some (Cancelled, results)).
Proof.
  split; [|split].
  - destruct (parse_all R e) as [p|] eqn:Hp.
    + rewrite (get_parameters_parsed R e p Hp). split.
      * intros [err H]. right. exists p. split; [reflexivity|].
        apply validate_Some. destruct (validate p); [eauto|discriminate].
      * intros [Hu|(p' & [= <-] & Ho)].
        -- apply parse_all_None in Hu. congruence.
        -- apply validate_Some in Ho as [err ->]. eauto.
    + split.
      * intros _. left. now apply parse_all_None.
      * intros _. now apply get_parameters_unparsed.
  - intros err H fuel results ask. unfold run_simulation. now rewrite H.
  - intros p H.
    destruct (parse_all R e) as [p'|] eqn:Hp.
    + rewrite (get_parameters_parsed R e p' Hp) in H.
      destruct (validate p') eqn:Hv; [discriminate|]. injection H as <-.
      split; [reflexivity|].
      intros fuel results ask. unfold run_simulation.
      now rewrite (get_parameters_parsed R e p' Hp), Hv.
    + destruct (get_parameters_unparsed R e Hp) as [err He]. congruence.
Qed.

(** The three kinds of rejection and an acceptance, on the form's texts. *)
Example get_parameters_examples :
  get_parameters Ref.rt (Entries "abc" "45.0" "1.0" "1.29" "0.15" "0.01" "0.01")
  = inl (NotANumber "abc") /\
  get_parameters Ref.rt (Entries "100.0" "45.0" "1.0" "1.29" "0.15" "0.01" "0")
  = inl StepNotPositive /\
  get_parameters Ref.rt (Entries "-1" "45.0" "1.0" "1.29" "0.15" "0.01" "0.01")
  = inl SpeedNotPositive /\
  get_parameters Ref.rt (Entries "100.0" "90" "1.0" "1.29" "0.15" "0.01" "0.01")
  = inl AngleOutOfRange /\
  get_parameters Ref.rt Ref.default_entries = inr Ref.default_params.
Proof. repeat split. Qed.

(** [float("nan")] compares false with everything: a NaN step, speed or
    angle passes the three checks. *)
Example nan_passes_validation :
  validate (Params nan nan 1 1.29 0.15 0.01 nan) = None.
Proof. reflexivity. Qed.

(** ** C9: the flight-time column *)

(** C9, as stated, fails.  Launched at 1 m/s with step 0.005 s, the loop
    makes 28 iterations; the table shows 29 * 0.005 = 0.145 as 0.14, while
    the elapsed time of the loop plus one step is 0.14500000000000005,
    which the same format shows as 0.15. *)
Lemma slow_launch_flight_time :
  well_formed Ref.slow_launch /\
  initial Ref.rt Ref.slow_launch = Ok Ref.slow_launch_0 /\
  euler_loop Ref.rt 28 Ref.slow_launch Ref.slow_launch_0
  = Some (Ok Ref.slow_launch_28) /\
  simulate Ref.rt 28 Ref.slow_launch = Some (Ok Ref.slow_launch_result) /\
  List.length (trajectory Ref.slow_launch_result) = 29%nat /\
  flight_time Ref.slow_launch_result = 0.145 /\
  st_t Ref.slow_launch_28 + p_dt Ref.slow_launch = 0.14500000000000005 /\
  col_flight_time (table_row_of Ref.slow_launch_result) = RFix false 14 /\
  format_f 2 (st_t Ref.slow_launch_28 + p_dt Ref.slow_launch)
  = RFix false 15.
Proof. repeat split. Qed.

(** Every row of the table is made from its result in the same way. *)
Lemma update_table_flight_time (results : list SimulationResult) :
  map col_flight_time (update_table results) =
  map (fun r => format_f 2
                  (Py.float_of_nat (List.length (trajectory r)) * dt r))
      results.
Proof. unfold update_table. rewrite map_map. reflexivity. Qed.

(** C9, amended: a result that a click stores gets the last row of the
    table, whose flight time is the length of its trajectory times its
    step, printed with two decimals.  The trajectory has one sample more
    than the loop made iterations, and the elapsed time of the loop is the
    step added that many times to 0.0, each addition rounded. *)
Theorem flight_time_column
        (R : runtime) (fuel : nat) (results results' : list SimulationResult)
        (e : entries) (ask : nat -> bool) (r : SimulationResult) :
  run_simulation R fuel results e ask = Some (Stored r, results') ->
  results' = results ++ [r] /\
  update_table results' = update_table results ++ [table_row_of r] /\
  col_flight_time (table_row_of r)
  = format_f 2 (Py.float_of_nat (List.length (trajectory r)) * dt r) /\
  exists p s0 n s,
    get_parameters R e = inr p /\
    initial R p = Ok s0 /\
    reaches R p s0 n s /\
    above_ground (st_y s) = false /\
    finish R p s = Ok r /\
    dt r = p_dt p /\
    List.length (trajectory r) = S n /\
    st_t s = elapsed (p_dt p) n.
Proof.
  unfold run_simulation.
  destruct (get_parameters R e) as [err|p] eqn:Hg; [discriminate|].
  destruct (confirm_rerun (p_dt p) results ask 0); [|discriminate].
  destruct (simulate R fuel p) as [[r'|ex]|] eqn:Hs; try discriminate.
  intros [= -> <-].
  split; [reflexivity|].
  split; [unfold update_table; now rewrite map_app|].
  split; [reflexivity|].
  apply simulate_inv in Hs as (s0 & n & s & Hi & _ & Hr & Hgd & Hf).
  destruct (initial_inv R p s0 Hi) as (_ & H0).
  destruct (reaches_inv R p s0 n s H0 Hr)
    as ((pre & Htr & Hlen & _) & _ & _ & Ht).
  destruct (finish_inv R p s r Hf) as (Hdt & Htraj & _).
  exists p, s0, n, s. repeat split; try assumption.
  rewrite Htraj, Htr, length_app, Hlen. simpl. lia.
Qed.

Lemma flight_time_column_witness :
  run_simulation Ref.rt 2 [] Ref.short_hop_entries (fun _ => true)
  = Some (Stored Ref.short_hop_result, [Ref.short_hop_result]) /\
  [Ref.short_hop_result] = [] ++ [Ref.short_hop_result] /\
  update_table [Ref.short_hop_result]
  = update_table [] ++ [table_row_of Ref.short_hop_result] /\
  col_flight_time (table_row_of Ref.short_hop_result)
  = format_f 2 (Py.float_of_nat
                  (List.length (trajectory Ref.short_hop_result))
                * dt Ref.short_hop_result) /\
  exists p s0 n s,
    get_parameters Ref.rt Ref.short_hop_entries = inr p /\
    initial Ref.rt p = Ok s0 /\
    reaches Ref.rt p s0 n s /\
    above_ground (st_y s) = false /\
    finish Ref.rt p s = Ok Ref.short_hop_result /\
    dt Ref.short_hop_result = p_dt p /\
    List.length (trajectory Ref.short_hop_result) = S n /\
    st_t s = elapsed (p_dt p) n.
Proof.
  split; [reflexivity|].
  apply (flight_time_column Ref.rt 2 [] [Ref.short_hop_result]
           Ref.short_hop_entries (fun _ => true)).
  reflexivity.
Defined.

(** ** C10: what validation leaves unchecked *)

(** C10: the checks of [get_parameters] do not look at mass, air density,
    drag coefficient or cross-section; with the text "0" in the mass field
    and the defaults elsewhere the parameters are accepted, the speed of
    the first iteration is positive, the divisor mass times speed is 0 and
    the click ends in an uncaught [ZeroDivisionError], nothing being
    stored. *)
Theorem zero_mass_raises :
  (forall p m rho c s,
      validate (Params (p_v0 p) (p_angle p) m rho c s (p_dt p))
      = validate p) /\
  (forall p vx vy v drag_force,
      (0 <? v) = true -> (p_m p * v =? 0) = true ->
      acceleration p vx vy v drag_force = Raise ZeroDivisionError) /\
  get_parameters Ref.rt Ref.zero_mass_entries = inr Ref.zero_mass /\
  well_formed Ref.zero_mass /\
  p_m Ref.zero_mass = 0 /\
  (exists s0 v,
      initial Ref.rt Ref.zero_mass = Ok s0 /\
      Py.norm Ref.rt (st_vx s0) (st_vy s0) = Ok v /\
      (0 <? v) = true /\
      (p_m Ref.zero_mass * v =? 0) = true /\
      euler_step Ref.rt Ref.zero_mass s0 = Raise ZeroDivisionError) /\
  forall fuel,
    simulate Ref.rt (S fuel) Ref.zero_mass = Some (Raise ZeroDivisionError) /\
    forall ask,
      run_simulation Ref.rt (S fuel) [] Ref.zero_mass_entries ask
      = Some (Failed ZeroDivisionError, []).
Proof.
  split; [reflexivity|].
  split; [exact acceleration_zero_divisor|].
  split; [reflexivity|].
  split; [repeat split|].
  split; [reflexivity|].
  split.
  - exists (Ref.state_after 0 Ref.zero_mass), 99.99999999999999.
    repeat split.
  - intros fuel. split; [reflexivity|]. intros ask. reflexivity.
Qed.

(** * Further properties of the code *)

(** ** get_parameters: what is accepted, and which error is shown *)

(** For a step, a speed and an angle that are numbers, the three checks
    accept exactly the well-formed parameter sets; a well-formed set is
    accepted in any case. *)
Theorem validate_accepts_well_formed (p : params) :
  (well_formed p -> validate p = None) /\
  (is_nan (p_dt p) = false -> is_nan (p_v0 p) = false ->
   is_nan (p_angle p) = false ->
   validate p = None -> well_formed p).
Proof.
  unfold validate, well_formed. split.
  - intros (Hdt & Hv & Ha0 & Ha90).
    rewrite (ltb_not_leb _ _ Hdt), (ltb_not_leb _ _ Hv),
      (ltb_not_leb _ _ Ha0), (ltb_not_leb _ _ Ha90). reflexivity.
  - intros Ndt Nv Na.
    assert (N0 : is_nan 0 = false) by reflexivity.
    assert (N90 : is_nan 90 = false) by reflexivity.
    destruct (p_dt p <=? 0) eqn:Hdt; [discriminate|].
    destruct (p_v0 p <=? 0) eqn:Hv; [discriminate|].
    destruct (p_angle p <=? 0) eqn:Ha0; [discriminate|].
    destruct (90 <=? p_angle p) eqn:Ha90; [discriminate|].
    intros _. repeat split; now apply not_leb_ltb.
Qed.

(** Closes the goals of a field that does not parse: the error names its
    text, and no range error is possible. *)
Ltac unparsed_field :=
  repeat split;
  try (intros [= <-]; reflexivity); try (intros [= ->]; reflexivity);
  try discriminate; intros (? & ? & _); discriminate.

(** The error that is shown: the text of the first field that does not
    parse, whatever the other fields hold; a range error only when all
    seven parse, the step before the speed, the speed before the angle. *)
Theorem get_parameters_error_order (R : runtime) (e : entries) :
  (forall text,
      get_parameters R e = inl (NotANumber text) <->
      first_unparsable R e = Some text) /\
  (get_parameters R e = inl StepNotPositive <->
   exists p, parse_all R e = Some p /\ (p_dt p <=? 0) = true) /\
  (get_parameters R e = inl SpeedNotPositive <->
   exists p, parse_all R e = Some p /\ (p_dt p <=? 0) = false /\
             (p_v0 p <=? 0) = true) /\
  (get_parameters R e = inl AngleOutOfRange <->
   exists p, parse_all R e = Some p /\ (p_dt p <=? 0) = false /\
             (p_v0 p <=? 0) = false /\
             ((p_angle p <=? 0) || (90 <=? p_angle p)) = true).
Proof.
  unfold get_parameters, parse, parse_all, first_unparsable, validate.
  cbn [find p_dt p_v0 p_angle].
  destruct (py_float R (e_v0 e)) as [v0|]; [|unparsed_field].
  destruct (py_float R (e_angle e)) as [angle|]; [|unparsed_field].
  destruct (py_float R (e_m e)) as [m|]; [|unparsed_field].
  destruct (py_float R (e_rho e)) as [rho|]; [|unparsed_field].
  destruct (py_float R (e_C e)) as [c|]; [|unparsed_field].
  destruct (py_float R (e_S e)) as [s|]; [|unparsed_field].
  destruct (py_float R (e_dt e)) as [step|]; [|unparsed_field].
  cbn [p_dt p_v0 p_angle].
  destruct (step <=? 0) eqn:Hdt; [|destruct (v0 <=? 0) eqn:Hv;
    [|destruct ((angle <=? 0) || (90 <=? angle)) eqn:Ha]];
    repeat split; try discriminate; try (intros _; eauto 10; fail);
    try (intros (p & [= <-] & H); cbn in H; intuition congruence).
Qed.

(** ** Which exceptions the loop can raise *)

Lemma pow2_raises (R : runtime) (x : float) (e : exn) :
  Py.pow2 R x = Raise e -> e = OverflowError.
Proof.
  unfold Py.pow2.
  destruct (is_nan x); [discriminate|].
  destruct (is_infinity x); [discriminate|].
  destruct (x =? 0); [discriminate|].
  destruct ((if x <? 0 then - x else x) =? 1); [discriminate|].
  destruct (is_infinity _); [|discriminate]. now intros [= <-].
Qed.

Lemma math_1_raises (func : float -> float) (x : float) (e : exn) :
  Py.math_1 func x = Raise e -> e = ValueError.
Proof.
  unfold Py.math_1.
  destruct (is_nan (func x) && negb (is_nan x)); [now intros [= <-]|].
  destruct (is_infinity (func x) && Py.is_finite x);
    [now intros [= <-]|discriminate].
Qed.

Lemma norm_raises (R : runtime) (a b : float) (e : exn) :
  Py.norm R a b = Raise e -> e = OverflowError \/ e = ValueError.
Proof.
  unfold Py.norm. intros H.
  apply bind_Raise in H as [H|(a2 & _ & H)];
    [left; now apply (pow2_raises R a)|].
  apply bind_Raise in H as [H|(b2 & _ & H)];
    [left; now apply (pow2_raises R b)|].
  right. now apply (math_1_raises sqrt (a2 + b2)).
Qed.

Lemma calculate_drag_force_raises
      (R : runtime) (v : float) (p : params) (e : exn) :
  calculate_drag_force R v p = Raise e -> e = OverflowError.
Proof.
  unfold calculate_drag_force. intros H.
  apply bind_Raise in H as [H|(v2 & _ & H)]; [|discriminate].
  now apply (pow2_raises R v).
Qed.

Lemma truediv_raises (a b : float) (e : exn) :
  Py.truediv a b = Raise e -> e = ZeroDivisionError /\ (b =? 0) = true.
Proof.
  unfold Py.truediv. destruct (b =? 0); [|discriminate].
  intros [= <-]. auto.
Qed.

Lemma acceleration_raises (p : params) (vx vy v drag_force : float) (e : exn) :
  acceleration p vx vy v drag_force = Raise e ->
  e = ZeroDivisionError /\ (0 <? v) = true /\ (p_m p * v =? 0) = true.
Proof.
  unfold acceleration. destruct (0 <? v); [|discriminate].
  intros H. apply bind_Raise in H as [H|(ax & _ & H)].
  - apply truediv_raises in H as (-> & H). auto.
  - apply bind_Raise in H as [H|(ay & _ & H)]; [|discriminate].
    apply bind_Raise in H as [H|(q & _ & H)]; [|discriminate].
    apply truediv_raises in H as (-> & H). auto.
Qed.

Lemma euler_step_zero_division (R : runtime) (p : params) (s : state) :
  euler_step R p s = Raise ZeroDivisionError <->
  exists v drag_force,
    Py.norm R (st_vx s) (st_vy s) = Ok v /\
    calculate_drag_force R v p = Ok drag_force /\
    (0 <? v) = true /\ (p_m p * v =? 0) = true.
Proof.
  unfold euler_step. split.
  - intros H. apply bind_Raise in H as [H|(v & Hv & H)].
    { apply norm_raises in H as [H|H]; discriminate. }
    apply bind_Raise in H as [H|(d & Hd & H)].
    { apply calculate_drag_force_raises in H. discriminate. }
    apply bind_Raise in H as [H|([ax ay] & _ & H)]; [|discriminate].
    apply acceleration_raises in H as (_ & Hpos & Hm).
    exists v, d. auto.
  - intros (v & d & Hv & Hd & Hpos & Hm).
    rewrite Hv. cbn [bind]. rewrite Hd. cbn [bind].
    now rewrite (acceleration_zero_divisor p _ _ v d Hpos Hm).
Qed.

(** A [ZeroDivisionError] of the simulation comes from one place only: an
    iteration whose speed is positive while mass times speed is zero. *)
Theorem simulate_zero_division
        (R : runtime) (p : params) (fuel : nat) :
  simulate R fuel p = Some (Raise ZeroDivisionError) ->
  exists s0 n s v,
    initial R p = Ok s0 /\ (n < fuel)%nat /\ reaches R p s0 n s /\
    above_ground (st_y s) = true /\
    Py.norm R (st_vx s) (st_vy s) = Ok v /\
    (0 <? v) = true /\ (p_m p * v =? 0) = true.
Proof.
  unfold simulate, initial.
  destruct (Py.math_cos R (Py.math_radians (p_angle p))) as [c|e] eqn:Hc;
    [|apply math_1_raises in Hc; subst; discriminate].
  destruct (Py.math_sin R (Py.math_radians (p_angle p))) as [sn|e] eqn:Hs;
    [|apply math_1_raises in Hs; subst; discriminate].
  cbn [bind].
  set (s0 := State 0 0 (p_v0 p * c) (p_v0 p * sn) [(0, 0)] [0] 0 0).
  destruct (euler_loop R fuel p s0) as [[s|e]|] eqn:Hl; try discriminate.
  - unfold finish.
    destruct (st_y s <=? 0); [|discriminate].
    destruct (Py.norm R (st_vx s) (st_vy s)) as [fs|e] eqn:Hn;
      [discriminate|].
    apply norm_raises in Hn as [-> | ->]; discriminate.
  - intros [= ->].
    destruct (euler_loop_raises R p fuel s0 0 s0 _ (reaches_O R p s0) Hl)
      as (k & s' & Hk & Hr & Hg & He).
    apply euler_step_zero_division in He as (v & d & Hv & _ & Hpos & Hm).
    exists s0, k, s', v. repeat split; auto.
Qed.

Lemma simulate_zero_division_witness :
  simulate Ref.rt 1 Ref.zero_mass = Some (Raise ZeroDivisionError) /\
  exists s0 n s v,
    initial Ref.rt Ref.zero_mass = Ok s0 /\ (n < 1)%nat /\
    reaches Ref.rt Ref.zero_mass s0 n s /\
    above_ground (st_y s) = true /\
    Py.norm Ref.rt (st_vx s) (st_vy s) = Ok v /\
    (0 <? v) = true /\ (p_m Ref.zero_mass * v =? 0) = true.
Proof.
  split; [reflexivity|].
  apply (simulate_zero_division Ref.rt Ref.zero_mass 1). reflexivity.
Defined.

(** ** The maximum height and the time stamps *)

Lemma leb_zero_ltb (m y : float) :
  (0 <=? m) = true -> (m <? y) = true -> (0 <=? y) = true.
Proof.
  rewrite !leb_spec, ltb_spec, Prim2SF_zero.
  destruct (Prim2SF m) as [[|]|[|]| |[|] ? ?],
           (Prim2SF y) as [[|]|[|]| |[|] ? ?];
    simpl; try discriminate; reflexivity.
Qed.

Lemma leb_zero_facts (m : float) :
  (0 <=? m) = true -> is_nan m = false /\ (m <? 0) = false.
Proof.
  rewrite leb_spec, ltb_spec, is_nan_spec, Prim2SF_zero.
  destruct (Prim2SF m) as [[|]|[|]| |[|] ? ?];
    simpl; try discriminate; auto.
Qed.

Lemma reaches_max_height (R : runtime) (p : params) (s0 : state)
      (n : nat) (s : state) :
  (0 <=? st_max_height s0) = true ->
  reaches R p s0 n s ->
  (0 <=? st_max_height s) = true.
Proof.
  intros H0. induction 1 as [|n s s' _ IH _ Hstep]; [assumption|].
  destruct (euler_step_inv R p s s' Hstep)
    as (v & d & ax & ay & _ & _ & _ & _ & _ & _ & _ & _ & _ & _ & ->).
  destruct (st_max_height s <? st_y s') eqn:E; [|assumption].
  now apply (leb_zero_ltb (st_max_height s)).
Qed.

(** The stored maximum height starts at 0.0 and only ever moves up: it is
    at least zero and never NaN, whatever the trajectory does, a final
    sample of NaN included. *)
Theorem max_height_not_negative
        (R : runtime) (p : params) (fuel : nat) (r : SimulationResult) :
  simulate R fuel p = Some (Ok r) ->
  (0 <=? max_height r) = true /\
  is_nan (max_height r) = false /\
  (max_height r <? 0) = false.
Proof.
  intros H.
  apply simulate_inv in H as (s0 & n & s & Hi & _ & Hr & _ & Hf).
  destruct (initial_inv R p s0 Hi) as (E0 & _).
  apply finish_inv in Hf as (_ & _ & _ & -> & _).
  assert (H0 : (0 <=? st_max_height s0) = true) by (rewrite E0; reflexivity).
  pose proof (reaches_max_height R p s0 n s H0 Hr) as Hm.
  split; [assumption|]. now apply leb_zero_facts.
Qed.

Lemma max_height_not_negative_witness :
  simulate Ref.rt 1 Ref.nan_density = Some (Ok Ref.nan_density_result) /\
  (0 <=? max_height Ref.nan_density_result) = true /\
  is_nan (max_height Ref.nan_density_result) = false /\
  (max_height Ref.nan_density_result <? 0) = false.
Proof.
  split; [reflexivity|].
  apply (max_height_not_negative Ref.rt Ref.nan_density 1). reflexivity.
Defined.

Lemma last_item_snoc {A : Type} (l : list A) (a : A) :
  last_item (l ++ [a]) = Some a.
Proof. unfold last_item. now rewrite rev_app_distr. Qed.

Lemma reaches_times (R : runtime) (p : params) (s0 : state)
      (n : nat) (s : state) :
  st_times s0 = [0] -> st_t s0 = 0 ->
  reaches R p s0 n s ->
  st_times s = map (elapsed (p_dt p)) (seq 0 (S n)) /\
  st_t s = elapsed (p_dt p) n.
Proof.
  intros Hts Ht. induction 1 as [|n s s' _ [IHts IHt] _ Hstep].
  - rewrite Hts, Ht. split; reflexivity.
  - destruct (euler_step_inv R p s s' Hstep)
      as (v & d & ax & ay & _ & _ & _ & _ & _ & _ & _ & Ht' & _ & Hts' & _).
    assert (E : st_t s' = elapsed (p_dt p) (S n))
      by (rewrite Ht', IHt; reflexivity).
    split; [|exact E].
    rewrite Hts', IHts, E, (seq_S (S n) 0), map_app. reflexivity.
Qed.

(** The list [times] keeps step with the trajectory: after [n] iterations
    it holds one time stamp per sample, the i-th being the step added i
    times to 0.0, and its last one is the elapsed time [t]. *)
Theorem times_follow_trajectory
        (R : runtime) (p : params) (s0 : state) (n : nat) (s : state) :
  initial R p = Ok s0 ->
  reaches R p s0 n s ->
  st_times s = map (elapsed (p_dt p)) (seq 0 (S n)) /\
  List.length (st_times s) = List.length (st_trajectory s) /\
  last_item (st_times s) = Some (st_t s).
Proof.
  intros Hi Hr.
  destruct (initial_inv R p s0 Hi) as (E0 & H0).
  destruct (reaches_times R p s0 n s) as (Hts & Ht);
    [rewrite E0; reflexivity..|assumption|].
  destruct (reaches_inv R p s0 n s H0 Hr) as ((pre & Htr & Hlen & _) & _).
  split; [assumption|]. split.
  - rewrite Hts, Htr, length_map, length_seq, length_app, Hlen. simpl. lia.
  - rewrite Hts, (seq_S n 0), map_app, Ht. apply last_item_snoc.
Qed.

Lemma times_follow_trajectory_witness :
  initial Ref.rt Ref.short_hop = Ok Ref.short_hop_0 /\
  reaches Ref.rt Ref.short_hop Ref.short_hop_0 2 Ref.short_hop_2 /\
  st_times Ref.short_hop_2
  = map (elapsed (p_dt Ref.short_hop)) (seq 0 3) /\
  List.length (st_times Ref.short_hop_2)
  = List.length (st_trajectory Ref.short_hop_2) /\
  last_item (st_times Ref.short_hop_2) = Some (st_t Ref.short_hop_2).
Proof.
  destruct short_hop_reaches as (Hi & Hr & _).
  split; [exact Hi|]. split; [exact Hr|].
  exact (times_follow_trajectory Ref.rt Ref.short_hop Ref.short_hop_0 2
           Ref.short_hop_2 Hi Hr).
Defined.

(** ** Arithmetic with a zero *)

Section ZeroArithmetic.
Local Open Scope float_scope.

Lemma eqb_zero_spec (x : float) :
  (x =? 0) = match Prim2SF x with S754_zero _ => true | _ => false end.
Proof.
  rewrite eqb_spec, Prim2SF_zero.
  destruct (Prim2SF x) as [[|]|[|]| |[|] ? ?]; reflexivity.
Qed.

Lemma is_infinity_spec (x : float) :
  is_infinity x =
  match Prim2SF x with S754_infinity _ => true | _ => false end.
Proof.
  unfold is_infinity. rewrite eqb_spec, abs_spec.
  change (Prim2SF infinity) with (S754_infinity false).
  destruct (Prim2SF x) as [[|]|[|]| |[|] ? ?]; reflexivity.
Qed.

Lemma is_finite_spec (x : float) :
  Py.is_finite x =
  match Prim2SF x with
  | S754_zero _ | S754_finite _ _ _ => true
  | _ => false
  end.
Proof.
  unfold Py.is_finite. rewrite is_nan_spec, is_infinity_spec.
  destruct (Prim2SF x); reflexivity.
Qed.

Ltac to_spec :=
  rewrite ?eqb_zero_spec, ?is_finite_spec, ?is_nan_spec, ?mul_spec,
    ?div_spec, ?add_spec, ?sub_spec, ?opp_spec in *;
  unfold SF64mul, SF64div, SF64add, SF64sub in *.

Lemma zero_mul_finite (a b : float) :
  (a =? 0) = true -> Py.is_finite b = true -> (a * b =? 0) = true.
Proof.
  intros Ha Hb. to_spec.
  destruct (Prim2SF a), (Prim2SF b); try discriminate; reflexivity.
Qed.

Lemma finite_mul_zero (a b : float) :
  Py.is_finite a = true -> (b =? 0) = true -> (a * b =? 0) = true.
Proof.
  intros Ha Hb. to_spec.
  destruct (Prim2SF a), (Prim2SF b); try discriminate; reflexivity.
Qed.

Lemma opp_zero (a : float) : (a =? 0) = true -> (- a =? 0) = true.
Proof.
  intros Ha. to_spec. destruct (Prim2SF a); try discriminate; reflexivity.
Qed.

Lemma zero_div (a b : float) :
  (a =? 0) = true -> (b =? 0) = false -> is_nan b = false ->
  (a / b =? 0) = true.
Proof.
  intros Ha Hb Hn. to_spec.
  destruct (Prim2SF a), (Prim2SF b); try discriminate; reflexivity.
Qed.

Lemma eqb_refl_finite (a : float) :
  Py.is_finite a = true -> (a =? a) = true.
Proof.
  rewrite is_finite_spec, eqb_spec. unfold SFeqb.
  rewrite SFcompare_refl. destruct (Prim2SF a); try discriminate; reflexivity.
Qed.

(** Adding a zero to a number gives a value equal to it (the sign of a
    zero may change). *)
Lemma add_zero_eqb (a z : float) :
  Py.is_finite a = true -> (z =? 0) = true -> (a + z =? a) = true.
Proof.
  intros Ha Hz. rewrite is_finite_spec in Ha. rewrite eqb_zero_spec in Hz.
  rewrite eqb_spec, add_spec. unfold SF64add, SFeqb.
  destruct (Prim2SF a) as [[|]|[|]| |sa ma ea],
           (Prim2SF z) as [[|]|[|]| |[|] mz ez];
    try discriminate; try reflexivity;
    cbn [SFadd]; rewrite SFcompare_refl; reflexivity.
Qed.

(** Subtracting a zero from a number that is not a zero gives that very
    number. *)
Lemma sub_zero_eq (a z : float) :
  Py.is_finite a = true -> (a =? 0) = false -> (z =? 0) = true ->
  a - z = a.
Proof.
  intros Ha Ha0 Hz. apply Prim2SF_inj. to_spec.
  destruct (Prim2SF a), (Prim2SF z); try discriminate; reflexivity.
Qed.
End ZeroArithmetic.

(** ** A step without drag *)

Lemma drag_force_zero (R : runtime) (p : params) (v v2 : float) :
  (p_C p =? 0) = true ->
  Py.is_finite (0.5 * p_rho p) = true ->
  Py.is_finite (p_S p) = true ->
  Py.pow2 R v = Ok v2 -> Py.is_finite v2 = true ->
  exists drag_force,
    calculate_drag_force R v p = Ok drag_force /\ (drag_force =? 0) = true.
Proof.
  intros HC Hrho HS Hv2 Hfin. unfold calculate_drag_force. rewrite Hv2.
  eexists. split; [reflexivity|].
  apply zero_mul_finite; [|assumption].
  apply zero_mul_finite; [|assumption].
  now apply finite_mul_zero.
Qed.

(** With drag coefficient 0 (and finite data), an iteration at positive
    speed leaves the horizontal velocity as it was and changes the
    vertical velocity by exactly -g times the step: drag drops out of
    both components. *)
Theorem zero_drag_step
        (R : runtime) (p : params) (s : state) (v v2 : float) :
  (p_C p =? 0) = true ->
  Py.is_finite (0.5 * p_rho p) = true ->
  Py.is_finite (p_S p) = true ->
  Py.is_finite (p_dt p) = true ->
  Py.is_finite (st_vx s) = true ->
  Py.is_finite (st_vy s) = true ->
  Py.norm R (st_vx s) (st_vy s) = Ok v ->
  (0 <? v) = true ->
  Py.pow2 R v = Ok v2 ->
  Py.is_finite v2 = true ->
  (p_m p * v =? 0) = false ->
  is_nan (p_m p * v) = false ->
  exists s',
    euler_step R p s = Ok s' /\
    (st_vx s' =? st_vx s) = true /\
    st_vy s' = st_vy s + - g * p_dt p.
Proof.
  intros HC Hrho HS Hdt Hvx Hvy Hn Hpos Hv2 Hfin Hm Hnan.
  destruct (drag_force_zero R p v v2 HC Hrho HS Hv2 Hfin) as (d & Hd & Hd0).
  unfold euler_step. rewrite Hn. cbn [bind]. rewrite Hd. cbn [bind].
  unfold acceleration. rewrite Hpos, !(truediv_nonzero _ _ Hm). cbn [bind].
  eexists. split; [reflexivity|]. cbn [st_vx st_vy]. split.
  - apply add_zero_eqb; [assumption|].
    apply zero_mul_finite; [|assumption].
    apply zero_div; [|assumption..].
    apply zero_mul_finite; [|assumption]. now apply opp_zero.
  - f_equal. f_equal.
    apply sub_zero_eq; [reflexivity|reflexivity|].
    apply zero_div; [|assumption..].
    now apply zero_mul_finite.
Qed.

Lemma zero_drag_step_witness :
  exists s',
    euler_step Ref.rt Ref.no_drag Ref.no_drag_0 = Ok s' /\
    (st_vx s' =? st_vx Ref.no_drag_0) = true /\
    st_vy s' = st_vy Ref.no_drag_0 + - g * p_dt Ref.no_drag.
Proof.
  apply (zero_drag_step Ref.rt Ref.no_drag Ref.no_drag_0
           99.99999999999999 (99.99999999999999 * 99.99999999999999));
    reflexivity.
Defined.

(** ** The confirmation of a repeated step *)

Lemma confirm_rerun_dialogs
      (step : float) (results : list SimulationResult) (ask : nat -> bool) :
  forall k,
    confirm_rerun step results ask k =
    forallb ask (seq k (List.length (filter (same_step step) results))).
Proof.
  induction results as [|r rest IH]; intros k; simpl; [reflexivity|].
  fold (same_step step r). destruct (same_step step r); simpl.
  - rewrite IH. reflexivity.
  - apply IH.
Qed.

(** [run_simulation] goes ahead exactly when the user answers yes to one
    dialog for every stored result whose step is within 1e-10 of the new
    one, asked in order until the first no; with no such result nothing is
    asked and it goes ahead. *)
Theorem confirm_rerun_one_dialog_per_match
        (step : float) (results : list SimulationResult)
        (ask : nat -> bool) :
  confirm_rerun step results ask 0 =
  forallb ask (seq 0 (List.length (filter (same_step step) results))) /\
  (forallb (fun r => negb (same_step step r)) results = true ->
   confirm_rerun step results ask 0 = true).
Proof.
  split; [apply confirm_rerun_dialogs|].
  intros Hnone. rewrite confirm_rerun_dialogs.
  replace (filter (same_step step) results) with (@nil SimulationResult);
    [reflexivity|].
  induction results as [|r rest IH]; [reflexivity|].
  simpl in *. apply andb_prop in Hnone as (Hr & Hrest).
  destruct (same_step step r); [discriminate|]. now apply IH.
Qed.

Lemma sub_self_zero (x : float) :
  Py.is_finite x = true -> (x - x =? 0) = true.
Proof.
  rewrite is_finite_spec, eqb_zero_spec, sub_spec. unfold SF64sub.
  destruct (Prim2SF x) as [[|]|[|]| |s m e]; try discriminate;
    try reflexivity.
  intros _. cbn [SFsub]. rewrite Z.sub_diag. reflexivity.
Qed.

Lemma same_step_refl (r : SimulationResult) :
  Py.is_finite (dt r) = true -> same_step (dt r) r = true.
Proof.
  intros H. apply sub_self_zero in H. unfold same_step.
  rewrite eqb_zero_spec in H. rewrite ltb_spec, abs_spec.
  destruct (Prim2SF (dt r - dt r)) as [[|]|[|]| |[|] ? ?];
    try discriminate; reflexivity.
Qed.

Lemma run_simulation_Stored
      (R : runtime) (fuel : nat) (results results' : list SimulationResult)
      (e : entries) (ask : nat -> bool) (r : SimulationResult) :
  run_simulation R fuel results e ask = Some (Stored r, results') ->
  exists p,
    get_parameters R e = inr p /\
    confirm_rerun (p_dt p) results ask 0 = true /\
    simulate R fuel p = Some (Ok r) /\
    dt r = p_dt p /\
    results' = results ++ [r].
Proof.
  unfold run_simulation.
  destruct (get_parameters R e) as [err|p] eqn:Hg; [discriminate|].
  destruct (confirm_rerun (p_dt p) results ask 0) eqn:Hc; [|discriminate].
  destruct (simulate R fuel p) as [[r'|ex]|] eqn:Hs; try discriminate.
  intros [= -> <-]. exists p. repeat split; auto.
  apply simulate_inv in Hs as (s0 & n & s & _ & _ & _ & _ & Hf).
  now apply finish_inv in Hf as (-> & _).
Qed.

Lemma forallb_seq_const (b : bool) (k n : nat) :
  forallb (fun _ => b) (seq k (S n)) = b.
Proof.
  revert k. induction n as [|n IH]; intros k.
  - simpl. now destruct b.
  - change (seq k (S (S n))) with (k :: seq (S k) (S n)).
    cbn [forallb]. rewrite IH. now destruct b.
Qed.

(** After a result with a finite step has been stored, clicking run again
    on the same form always asks for confirmation: a user who declines
    gets nothing new, one who confirms every dialog gets the same result
    stored a second time. *)
Theorem rerun_same_step_is_confirmed
        (R : runtime) (fuel : nat) (results results' : list SimulationResult)
        (e : entries) (ask : nat -> bool) (r : SimulationResult) :
  run_simulation R fuel results e ask = Some (Stored r, results') ->
  Py.is_finite (dt r) = true ->
  run_simulation R fuel results' e (fun _ => false)
  = Some (Cancelled, results') /\
  run_simulation R fuel results' e (fun _ => true)
  = Some (Stored r, results' ++ [r]).
Proof.
  intros H Hfin.
  apply run_simulation_Stored in H as (p & Hg & _ & Hs & Hdt & ->).
  assert (Hm : exists n,
             List.length (filter (same_step (p_dt p)) (results ++ [r]))
             = S n).
  { rewrite filter_app, length_app. simpl.
    rewrite <- Hdt, (same_step_refl r Hfin). simpl.
    exists (List.length (filter (same_step (dt r)) results)). lia. }
  destruct Hm as (n & Hn).
  unfold run_simulation. rewrite Hg.
  rewrite !confirm_rerun_dialogs, Hn, !forallb_seq_const, Hs.
  split; reflexivity.
Qed.

Lemma rerun_same_step_is_confirmed_witness :
  run_simulation Ref.rt 2 [] Ref.short_hop_entries (fun _ => true)
  = Some (Stored Ref.short_hop_result, [Ref.short_hop_result]) /\
  Py.is_finite (dt Ref.short_hop_result) = true /\
  run_simulation Ref.rt 2 [Ref.short_hop_result] Ref.short_hop_entries
                 (fun _ => false)
  = Some (Cancelled, [Ref.short_hop_result]) /\
  run_simulation Ref.rt 2 [Ref.short_hop_result] Ref.short_hop_entries
                 (fun _ => true)
  = Some (Stored Ref.short_hop_result,
          [Ref.short_hop_result] ++ [Ref.short_hop_result]).
Proof.
  split; [reflexivity|]. split; [reflexivity|].
  apply (rerun_same_step_is_confirmed Ref.rt 2 [] [Ref.short_hop_result]
           Ref.short_hop_entries (fun _ => true)); reflexivity.
Defined.

(** ** What a session stores, and what the plot makes of it *)

(** A result a run returned ends at its landing sample: the last sample
    is the reported range with a height that fails [y >= 0], and at least
    one sample comes before it. *)
Lemma from_run_landed (R : runtime) (r : SimulationResult) :
  from_run R r ->
  exists pre y,
    trajectory r = pre ++ [(f_range r, y)] /\ pre <> [] /\
    above_ground y = false.
Proof.
  intros (p & fuel & H).
  apply simulate_inv in H as (s0 & n & s & Hi & _ & Hr & Hg & Hf).
  destruct (reaches_exit_positive R p s0 n s Hi Hr Hg)
    as (n' & s_prev & -> & _).
  destruct (initial_inv R p s0 Hi) as (_ & H0).
  destruct (reaches_inv R p s0 _ s H0 Hr) as ((pre & Htr & Hlen & _) & _).
  apply finish_inv in Hf as (_ & Htraj & Hrange & _).
  exists pre, (st_y s). rewrite Htraj, Hrange. repeat split; auto.
  intros ->. discriminate.
Qed.

Lemma run_simulation_results
      (R : runtime) (fuel : nat) (results results' : list SimulationResult)
      (e : entries) (ask : nat -> bool) (o : outcome) :
  run_simulation R fuel results e ask = Some (o, results') ->
  results' = results \/
  exists r, from_run R r /\ results' = results ++ [r].
Proof.
  unfold run_simulation.
  destruct (get_parameters R e) as [err|p]; [intros [= _ <-]; now left|].
  destruct (confirm_rerun (p_dt p) results ask 0);
    [|intros [= _ <-]; now left].
  destruct (simulate R fuel p) as [[r|ex]|] eqn:Hs; try discriminate.
  - intros [= _ <-]. right. exists r. split; [|reflexivity].
    now exists p, fuel.
  - intros [= _ <-]. now left.
Qed.

Lemma click_step_from_run
      (R : runtime) (results results' : list SimulationResult) (c : click) :
  Forall (from_run R) results ->
  click_step R results c = Some results' ->
  Forall (from_run R) results'.
Proof.
  intros Hall. destruct c as [e ask fuel|[|]]; simpl.
  - destruct (run_simulation R fuel results e ask) as [[o rs]|] eqn:Hrun;
      [|discriminate].
    intros [= <-].
    apply run_simulation_results in Hrun as [->|(r & Hr & ->)];
      [assumption|].
    apply Forall_app. split; [assumption|]. now constructor.
  - intros [= <-]. constructor.
  - now intros [= <-].
Qed.

Lemma session_from_run
      (R : runtime) (cs : list click) :
  forall results results',
    Forall (from_run R) results ->
    session R results cs = Some results' ->
    Forall (from_run R) results'.
Proof.
  induction cs as [|c cs IH]; intros results results' Hall; simpl.
  - now intros [= <-].
  - destruct (click_step R results c) as [rs|] eqn:Hc; [|discriminate].
    apply (IH rs). now apply (click_step_from_run R results rs c).
Qed.

(** Clicks other than a confirmed clear never remove or change what is
    stored: the results after the session are the results before it,
    followed by at most one new result per click. *)
Theorem session_only_appends
        (R : runtime) (cs : list click)
        (results results' : list SimulationResult) :
  forallb keeps_results cs = true ->
  session R results cs = Some results' ->
  exists added,
    results' = results ++ added /\
    (List.length added <= List.length cs)%nat /\
    Forall (from_run R) added.
Proof.
  revert results. induction cs as [|c cs IH]; intros results Hk; simpl.
  - intros [= <-]. exists []. rewrite app_nil_r. repeat split; auto.
  - simpl in Hk. apply andb_prop in Hk as (Hc & Hk).
    destruct (click_step R results c) as [rs|] eqn:Hstep; [|discriminate].
    intros Hs. destruct (IH rs Hk Hs) as (added & -> & Hlen & Hall).
    assert (Hone : rs = results \/
                   exists r, from_run R r /\ rs = results ++ [r]).
    { destruct c as [e ask fuel|[|]]; simpl in Hstep; try discriminate.
      - destruct (run_simulation R fuel results e ask) as [[o rs']|] eqn:Hrun;
          [|discriminate].
        injection Hstep as ->.
        now apply run_simulation_results in Hrun.
      - injection Hstep as <-. now left. }
    destruct Hone as [->|(r & Hr & ->)].
    + exists added. repeat split; auto.
    + exists (r :: added). rewrite <- app_assoc. simpl.
      repeat split; [lia|]. now constructor.
Qed.

Lemma session_only_appends_witness :
  forallb keeps_results Ref.demo_session = true /\
  session Ref.rt [] Ref.demo_session = Some Ref.demo_results /\
  exists added,
    Ref.demo_results = [] ++ added /\
    (List.length added <= List.length Ref.demo_session)%nat /\
    Forall (from_run Ref.rt) added.
Proof.
  split; [reflexivity|]. split; [reflexivity|].
  apply (session_only_appends Ref.rt Ref.demo_session []); reflexivity.
Defined.

Lemma last_item_pair {A B : Type} (l : list (A * B)) (a : A) (b : B) :
  last_item (map fst l) = Some a -> last_item (map snd l) = Some b ->
  last_item l = Some (a, b).
Proof.
  unfold last_item. rewrite <- !map_rev.
  destruct (rev l) as [|[a' b'] t]; simpl; [discriminate|].
  now intros [= ->] [= ->].
Qed.

Lemma last_item_None {A : Type} (l : list A) :
  last_item l = None <-> l = [].
Proof.
  unfold last_item. split.
  - intros H. destruct (rev l) eqn:E; [|discriminate].
    apply (f_equal (@rev A)) in E. now rewrite rev_involutive in E.
  - now intros ->.
Qed.

(** The series [plot_from] draws, one by one. *)
Lemma plot_from_nth (results : list SimulationResult) :
  forall i drawn,
    plot_from i results = Some drawn ->
    List.length drawn = List.length results /\
    forall k r,
      nth_error results k = Some r ->
      exists d,
        nth_error drawn k = Some d /\
        ser_color d = nth ((i + k) mod 5) colors EmptyString /\
        ser_x d = map fst (trajectory r) /\
        ser_y d = heights (trajectory r) /\
        ser_label d = format_f 4 (dt r) /\
        last_item (trajectory r) = Some (ser_marker d).
Proof.
  induction results as [|r0 rest IH]; intros i drawn; cbn [plot_from].
  - intros [= <-]. split; [reflexivity|]. intros [|k] r; discriminate.
  - destruct (last_item (map fst (trajectory r0))) as [x|] eqn:Hx;
      [|discriminate].
    destruct (last_item (map snd (trajectory r0))) as [y|] eqn:Hy;
      [|discriminate].
    destruct (plot_from (S i) rest) as [drawn'|] eqn:Hrest; [|discriminate].
    intros [= <-]. destruct (IH (S i) drawn' Hrest) as (Hlen & Hnth).
    split; [simpl; now rewrite Hlen|].
    intros [|k] r; simpl.
    + intros [= <-]. eexists. split; [reflexivity|]. simpl.
      rewrite Nat.add_0_r. repeat split. now apply last_item_pair.
    + intros Hk. destruct (Hnth k r Hk) as (d & Hd & Hc & Hrest').
      exists d. split; [assumption|]. split; [|assumption].
      rewrite Hc. now replace (i + S k)%nat with (S i + k)%nat by lia.
Qed.

Lemma plot_from_None (results : list SimulationResult) :
  forall i,
    plot_from i results = None <->
    Exists (fun r => trajectory r = []) results.
Proof.
  induction results as [|r0 rest IH]; intros i; cbn [plot_from].
  - split; [discriminate|]. intros H. inversion H.
  - destruct (last_item (map fst (trajectory r0))) as [x|] eqn:Hx.
    + destruct (last_item (map snd (trajectory r0))) as [y|] eqn:Hy.
      * assert (Hne : trajectory r0 <> []).
        { intros E. rewrite E in Hx. discriminate. }
        destruct (plot_from (S i) rest) as [drawn'|] eqn:Hrest.
        -- split; [discriminate|]. intros H.
           inversion H as [? ? H0|? ? H0]; subst; [contradiction|].
           apply (IH (S i)) in H0. congruence.
        -- split; [|reflexivity]. intros _. apply Exists_cons_tl.
           now apply (IH (S i)).
      * apply last_item_None in Hy. apply map_eq_nil in Hy.
        split; [|reflexivity]. intros _. now apply Exists_cons_hd.
    + apply last_item_None in Hx. apply map_eq_nil in Hx.
      split; [|reflexivity]. intros _. now apply Exists_cons_hd.
Qed.

(** [update_plot] fails with [IndexError] exactly when some stored
    trajectory is empty.  Otherwise it draws one series per result, in
    order: the k-th one in the colour [colors[k % 5]], so the sixth
    repeats the first, through all samples of the trajectory, labelled
    with the step to four decimals, its marker on the last sample. *)
Theorem update_plot_series (results : list SimulationResult) :
  (update_plot results = None <->
   Exists (fun r => trajectory r = []) results) /\
  (forall drawn,
      update_plot results = Some drawn ->
      List.length drawn = List.length results /\
      forall k r,
        nth_error results k = Some r ->
        exists d,
          nth_error drawn k = Some d /\
          ser_color d = nth (k mod 5) colors EmptyString /\
          ser_x d = map fst (trajectory r) /\
          ser_y d = heights (trajectory r) /\
          ser_label d = format_f 4 (dt r) /\
          last_item (trajectory r) = Some (ser_marker d)).
Proof.
  unfold update_plot. split; [apply plot_from_None|].
  intros drawn H. destruct (plot_from_nth results 0 drawn H) as (Hlen & Hnth).
  split; [assumption|]. intros k r Hk.
  destruct (Hnth k r Hk) as (d & Hd). now exists d.
Qed.

(** Whatever is clicked in a session that starts with nothing stored,
    [update_plot] never meets an empty trajectory: it draws every stored
    result, and each marker sits on the landing sample, at the reported
    range and at a height that fails [y >= 0], below the axis floor that
    [set_ylim(bottom=0)] sets. *)
Theorem session_plot_markers
        (R : runtime) (cs : list click) (results : list SimulationResult) :
  session R [] cs = Some results ->
  exists drawn,
    update_plot results = Some drawn /\
    forall k r,
      nth_error results k = Some r ->
      exists d y,
        nth_error drawn k = Some d /\
        ser_marker d = (f_range r, y) /\
        above_ground y = false.
Proof.
  intros Hs.
  assert (Hall : Forall (from_run R) results)
    by (apply (session_from_run R cs [] results); [constructor|assumption]).
  destruct (update_plot results) as [drawn|] eqn:Hp.
  - exists drawn. split; [reflexivity|]. intros k r Hk.
    destruct (plot_from_nth results 0 drawn Hp) as (_ & Hnth).
    destruct (Hnth k r Hk) as (d & Hd & _ & _ & _ & _ & Hlast).
    assert (Hr : from_run R r).
    { rewrite Forall_forall in Hall. apply Hall.
      now apply (nth_error_In results k). }
    destruct (from_run_landed R r Hr) as (pre & y & Htr & _ & Hg).
    rewrite Htr, last_item_snoc in Hlast. injection Hlast as Hm.
    exists d, y. auto.
  - apply plot_from_None in Hp. apply Exists_exists in Hp as (r & Hin & He).
    rewrite Forall_forall in Hall.
    destruct (from_run_landed R r (Hall r Hin)) as (pre & y & Htr & _).
    rewrite He in Htr. now destruct pre.
Qed.

Lemma session_plot_markers_witness :
  session Ref.rt [] Ref.demo_session = Some Ref.demo_results /\
  exists drawn,
    update_plot Ref.demo_results = Some drawn /\
    forall k r,
      nth_error Ref.demo_results k = Some r ->
      exists d y,
        nth_error drawn k = Some d /\
        ser_marker d = (f_range r, y) /\
        above_ground y = false.
Proof.
  split; [reflexivity|].
  apply (session_plot_markers Ref.rt Ref.demo_session). reflexivity.
Defined.
